(** * node-disk-stat: a shallow embedding of [index.js]

    The module samples [/proc/diskstats] twice and turns the difference of a
    sector counter into a rate.  Its three exports are [usageRead],
    [usageWrite] and [raw]; the private helpers are [_parseProcDiskstats] and
    [_bytesTo].

    JavaScript values are modelled as follows.
    - Strings are sequences of code units below 256 ([string]); the text of
      [/proc/diskstats] is ASCII.
    - Numbers are IEEE 754 binary64 values ([spec_float] with [prec = 53] and
      [emax = 1024]), with the arithmetic of the standard library's
      [SpecFloat].
    - Plain objects used as dictionaries are finite maps ([gmap string _]);
      what an object inherits from [Object.prototype] is written out where
      the code looks a key up.  The order of an object's properties is not
      modelled.
    - A call of [usageRead] or [usageWrite] is a function of the options
      object and of what the environment answers (the two file reads and the
      clock); it returns the options object as the call leaves it, the
      effects it performed, and how the call completes.  The options object
      is an ordinary extensible object holding [undefined], [null],
      booleans, numbers or strings, and nobody else writes to it while the
      call waits. *)

From Stdlib Require Import ZArith String Ascii List Bool Lia.
From Stdlib Require Import Floats.SpecFloat.
From stdpp Require Import base option list gmap strings pretty.

Open Scope string_scope.
Open Scope Z_scope.

(** ** Characters and strings *)

(** The double quote, which a string literal cannot hold. *)
Definition dquote : ascii := ascii_of_nat 34.

(** [WhiteSpace] and [LineTerminator] code units below 256: TAB, LF, VT, FF,
    CR, SP and NBSP.  This is what [String.prototype.trim] strips and what
    the regular expression class [\s] matches. *)
Definition is_ws (c : ascii) : bool :=
  let n := nat_of_ascii c in
  ((9 <=? n)%nat && (n <=? 13)%nat) || (n =? 32)%nat || (n =? 160)%nat.

Definition newline : ascii := ascii_of_nat 10.

Definition is_nl (c : ascii) : bool := (nat_of_ascii c =? 10)%nat.

Definition is_empty (s : string) : bool :=
  match s with EmptyString => true | String _ _ => false end.

Fixpoint trim_start (s : string) : string :=
  match s with
  | EmptyString => EmptyString
  | String c s' => if is_ws c then trim_start s' else s
  end.

Fixpoint trim_end (s : string) : string :=
  match s with
  | EmptyString => EmptyString
  | String c s' =>
      let r := trim_end s' in
      if is_ws c && is_empty r then EmptyString else String c r
  end.

(** [String.prototype.trim]. *)
Definition trim (s : string) : string := trim_end (trim_start s).

(** [s.split(sep)] for a one-character separator: the pieces between the
    occurrences of [sep]; a string without [sep], the empty one included, is
    a single piece. *)
Fixpoint split_char (sep : ascii -> bool) (s : string) : list string :=
  match s with
  | EmptyString => [EmptyString]
  | String c s' =>
      if sep c then EmptyString :: split_char sep s'
      else match split_char sep s' with
           | [] => [String c EmptyString]
           | p :: ps => String c p :: ps
           end
  end.

(** [s.split(/\s+/)]: the pieces between the maximal runs of white space.
    A run at the start or at the end leaves an empty piece there, and the
    empty string gives one empty piece.  [in_run] says that the character
    before was white space, so that a run ends the current piece once. *)
Fixpoint split_ws_from (in_run : bool) (s : string) : list string :=
  match s with
  | EmptyString => [EmptyString]
  | String c s' =>
      if is_ws c then
        if in_run then split_ws_from true s'
        else EmptyString :: split_ws_from true s'
      else match split_ws_from false s' with
           | [] => [String c EmptyString]
           | p :: ps => String c p :: ps
           end
  end.

Definition split_ws (s : string) : list string := split_ws_from false s.

(** ** Numbers: IEEE 754 binary64 *)

Definition prec : Z := 53.
Definition emax : Z := 1024.

Abbreviation number := spec_float.

Definition NaN : number := S754_nan.
Definition Infinity (neg : bool) : number := S754_infinity neg.

Definition num_add : number -> number -> number := SFadd prec emax.
Definition num_sub : number -> number -> number := SFsub prec emax.
Definition num_mul : number -> number -> number := SFmul prec emax.
Definition num_div : number -> number -> number := SFdiv prec emax.

(** The number nearest to the integer [z] (ties to even). *)
Definition num_of_Z (z : Z) : number := binary_normalize prec emax z 0 false.

(** The number nearest to [m * 10 ^ e] for [0 < m], with sign [neg]: what a
    decimal literal with digits [m] and exponent [e] denotes.  For a negative
    exponent the quotient [m / 10 ^ (- e)] is rounded once, from the integer
    quotient and the place of the remainder. *)
Definition round_decimal (neg : bool) (m e : Z) : number :=
  if 0 <=? e then binary_normalize prec emax (cond_Zopp neg (m * 10 ^ e)) 0 neg
  else
    let '(q, e', l) := SFdiv_core_binary prec emax m 0 (10 ^ (- e)) 0 in
    binary_round_aux prec emax neg q e' l.

(** *** [StringToNumber] *)

Definition digit_of (base : Z) (c : ascii) : option Z :=
  let n := Z.of_nat (nat_of_ascii c) in
  let d :=
    if (48 <=? n) && (n <=? 57) then Some (n - 48)
    else if (97 <=? n) && (n <=? 102) then Some (n - 87)
    else if (65 <=? n) && (n <=? 70) then Some (n - 55)
    else None in
  match d with
  | Some v => if v <? base then Some v else None
  | None => None
  end.

(** The value of a string of digits in [base], read after [acc]; [None] when
    a character is not a digit of that base. *)
Fixpoint digits_value (base : Z) (acc : Z) (s : string) : option Z :=
  match s with
  | EmptyString => Some acc
  | String c s' =>
      match digit_of base c with
      | Some d => digits_value base (base * acc + d) s'
      | None => None
      end
  end.

(** The longest prefix of decimal digits, and what follows it. *)
Fixpoint span_digits (s : string) : string * string :=
  match s with
  | EmptyString => (EmptyString, EmptyString)
  | String c s' =>
      match digit_of 10 c with
      | Some _ => let '(ds, r) := span_digits s' in (String c ds, r)
      | None => (EmptyString, s)
      end
  end.

(** [0x], [0o] and [0b] literals (either case), which take no sign. *)
Definition parse_radix (s : string) : option Z :=
  match s with
  | String "0" (String p ds) =>
      let base :=
        if (p =? "x")%char || (p =? "X")%char then Some 16
        else if (p =? "o")%char || (p =? "O")%char then Some 8
        else if (p =? "b")%char || (p =? "B")%char then Some 2
        else None in
      match base, ds with
      | Some b, String _ _ => digits_value b 0 ds
      | _, _ => None
      end
  | _ => None
  end.

Definition parse_sign (s : string) : bool * string :=
  match s with
  | String "-" s' => (true, s')
  | String "+" s' => (false, s')
  | _ => (false, s)
  end.

(** The exponent part: nothing, or [e] or [E], an optional sign and at least
    one digit. *)
Definition parse_exponent (s : string) : option Z :=
  match s with
  | EmptyString => Some 0
  | String c s' =>
      if (c =? "e")%char || (c =? "E")%char then
        let '(neg, ds) := parse_sign s' in
        match ds with
        | EmptyString => None
        | String _ _ => cond_Zopp neg <$> digits_value 10 0 ds
        end
      else None
  end.

(** An unsigned [StrDecimalLiteral] other than [Infinity], as digits and a
    power of ten: digits, an optional point and more digits, with a digit on
    one side of the point at least, then the exponent part. *)
Definition parse_decimal (s : string) : option (Z * Z) :=
  let '(int_part, r1) := span_digits s in
  let '(frac_part, r2) :=
    match r1 with
    | String "." r => span_digits r
    | _ => (EmptyString, r1)
    end in
  if is_empty int_part && is_empty frac_part then None
  else
    match digits_value 10 0 (int_part +:+ frac_part), parse_exponent r2 with
    | Some m, Some e => Some (m, e - Z.of_nat (String.length frac_part))
    | _, _ => None
    end.

(** [StringToNumber]: white space around the literal is dropped, the empty
    string is [+0], and what is not a numeric literal is [NaN]. *)
Definition StringToNumber (s : string) : number :=
  let t := trim s in
  if is_empty t then S754_zero false
  else
    match parse_radix t with
    | Some z => num_of_Z z
    | None =>
        let '(neg, u) := parse_sign t in
        if String.eqb u "Infinity" then Infinity neg
        else
          match parse_decimal u with
          | Some (0, _) => S754_zero neg
          | Some (m, e) => round_decimal neg m e
          | None => NaN
          end
    end.

(** *** [Number::toString] *)

#[global] Instance number_eq_dec : EqDecision number.
Proof. solve_decision. Defined.

Fixpoint zeros (n : nat) : string :=
  match n with
  | O => EmptyString
  | S k => String "0" (zeros k)
  end.

(** The least [j] from [j] on with [den <= num * 10 ^ j]. *)
Fixpoint scale_up (fuel : nat) (j num den : Z) : Z :=
  match fuel with
  | O => j
  | S f => if den <=? num * 10 ^ j then j else scale_up f (j + 1) num den
  end.

(** The [n] with [10 ^ (n - 1) <= num / den < 10 ^ n], for a positive
    fraction in the range of binary64. *)
Definition decimal_exponent (num den : Z) : Z :=
  if den <=? num then Z.of_nat (String.length (pretty (num / den)))
  else 1 - scale_up 400 1 num den.

(** The shortest decimal that reads back as [x]: the least [k] from [k] on
    and a [k]-digit [s] with [s * 10 ^ (n - k)] rounding to [x], the [s]
    nearest to [x] when two do. *)
Fixpoint shortest_digits (fuel : nat) (k : Z) (x : number) (num den n : Z)
  : Z * Z * Z :=
  match fuel with
  | O => (0, k, n)
  | S f =>
      let sh := k - n in
      let num' := if 0 <=? sh then num * 10 ^ sh else num in
      let den' := if 0 <=? sh then den else den * 10 ^ (- sh) in
      let lo := num' / den' in
      let r := num' mod den' in
      let reads_back s := bool_decide (round_decimal false s (n - k) = x) in
      let pick :=
        if r =? 0 then Some lo
        else
          match reads_back lo, reads_back (lo + 1) with
          | true, true =>
              Some match 2 * r ?= den' with
                   | Lt => lo
                   | Gt => lo + 1
                   | Eq => if Z.even lo then lo else lo + 1
                   end
          | true, false => Some lo
          | false, true => Some (lo + 1)
          | false, false => None
          end in
      match pick with
      | Some s => if s =? 10 ^ k then (10 ^ (k - 1), k, n + 1) else (s, k, n)
      | None => shortest_digits f (k + 1) x num den n
      end
  end.

(** [Number::toString] in radix 10. *)
Definition NumberToString (x : number) : string :=
  match x with
  | S754_nan => "NaN"
  | S754_zero _ => "0"
  | S754_infinity neg => (if neg then "-" else "") +:+ "Infinity"
  | S754_finite neg m e =>
      let '(num, den) :=
        if 0 <=? e then (Zpos m * 2 ^ e, 1) else (Zpos m, 2 ^ (- e)) in
      let '(s, k, n) :=
        shortest_digits 17 1 (S754_finite false m e) num den
          (decimal_exponent num den) in
      let ds := pretty s in
      let body :=
        if (k <=? n) && (n <=? 21) then ds +:+ zeros (Z.to_nat (n - k))
        else if (0 <? n) && (n <=? 21) then
          substring 0 (Z.to_nat n) ds +:+ "." +:+
          substring (Z.to_nat n) (Z.to_nat (k - n)) ds
        else if (-6 <? n) && (n <=? 0) then
          "0." +:+ zeros (Z.to_nat (- n)) +:+ ds
        else
          let ex :=
            (if 0 <=? n - 1 then "+" else "-") +:+ pretty (Z.abs (n - 1)) in
          match ds with
          | String d EmptyString => String d ("e" +:+ ex)
          | String d rest => String d ("." +:+ rest +:+ "e" +:+ ex)
          | EmptyString => EmptyString
          end in
      (if neg then "-" else "") +:+ body
  end.

(** ** Values *)

(** The JavaScript values the model ranges over: [undefined], [null],
    booleans, numbers and strings, and what a plain object inherits from
    [Object.prototype].  [VBuiltin name] is the member [Object.prototype]
    holds under [name]: a function, or for [__proto__] the prototype object
    itself.  Symbols, big integers and other objects are left out: what the
    code does with them, or when it is called without an object, is not
    modelled. *)
Inductive value : Type :=
  | VUndefined
  | VNull
  | VBool (b : bool)
  | VNumber (x : number)
  | VString (s : string)
  | VBuiltin (name : string).

(** The property names of [Object.prototype]. *)
Definition object_prototype_names : list string :=
  [ "constructor"; "__defineGetter__"; "__defineSetter__"; "hasOwnProperty";
    "__lookupGetter__"; "__lookupSetter__"; "isPrototypeOf";
    "propertyIsEnumerable"; "toString"; "valueOf"; "__proto__";
    "toLocaleString" ].

(** What a property lookup that finds no own property returns. *)
Definition inherited (key : string) : value :=
  if bool_decide (key ∈ object_prototype_names) then VBuiltin key
  else VUndefined.

(** [ToBoolean]. *)
Definition truthy (v : value) : bool :=
  match v with
  | VUndefined | VNull => false
  | VBool b => b
  | VNumber (S754_zero _) | VNumber S754_nan => false
  | VNumber _ => true
  | VString s => negb (is_empty s)
  | VBuiltin _ => true
  end.

(** [a || b] for an operand [b] without effects. *)
Definition js_or (a b : value) : value := if truthy a then a else b.

(** [ToNumber]; an object converts through its string, which is no numeric
    literal. *)
Definition ToNumber (v : value) : number :=
  match v with
  | VUndefined => NaN
  | VNull => S754_zero false
  | VBool b => if b then num_of_Z 1 else S754_zero false
  | VNumber x => x
  | VString s => StringToNumber s
  | VBuiltin _ => NaN
  end.

(** [ToString], which also turns a value into a property key. *)
Definition ToString (v : value) : string :=
  match v with
  | VUndefined => "undefined"
  | VNull => "null"
  | VBool b => if b then "true" else "false"
  | VNumber x => NumberToString x
  | VString s => s
  | VBuiltin name =>
      if String.eqb name "__proto__" then "[object Object]"
      else
        "function " +:+
        (if String.eqb name "constructor" then "Object" else name) +:+
        "() { [native code] }"
  end.

(** What the code does to the world besides returning. *)
Inductive event : Type :=
  | Delay (ms : value)
  | ConsoleLog (msg : string).

Inductive error : Type :=
  | TypeError
  | SystemError.

(** A computation that may throw. *)
Inductive result (A : Type) : Type :=
  | Ok (a : A)
  | Throw (e : error).

Arguments Ok {A} a.
Arguments Throw {A} e.

(** ** [_parseProcDiskstats] *)

(** The record stored per device.  A field holds the text of its column, or
    nothing ([undefined]) when the line has no such column. *)
Record DeviceStats : Type := {
  deviceNumber : option string;
  deviceNumberMinor : option string;
  readsCompleted : option string;
  readsMerged : option string;
  sectorsRead : option string;
  msReading : option string;
  writesCompleted : option string;
  writesMerged : option string;
  sectorsWritten : option string;
  msWriting : option string;
  iosPending : option string;
  msIo : option string;
  msWeightedIo : option string
}.

(** The object [data]: its own properties, and its prototype when an
    assignment to [__proto__] replaced [Object.prototype]. *)
Record snapshot : Type := {
  own : gmap string DeviceStats;
  proto : option DeviceStats
}.

Definition empty_object : snapshot := {| own := ∅; proto := None |}.

(** The object literal of lines 56-70. *)
Definition stats_of (values : list string) : DeviceStats :=
  {| deviceNumber := values !! 0%nat;
     deviceNumberMinor := values !! 1%nat;
     readsCompleted := values !! 3%nat;
     readsMerged := values !! 4%nat;
     sectorsRead := values !! 5%nat;
     msReading := values !! 6%nat;
     writesCompleted := values !! 7%nat;
     writesMerged := values !! 8%nat;
     sectorsWritten := values !! 9%nat;
     msWriting := values !! 10%nat;
     iosPending := values !! 11%nat;
     msIo := values !! 12%nat;
     msWeightedIo := values !! 13%nat |}.

(** The property key [values[2]] turns into. *)
Definition key_of (values : list string) : string :=
  match values !! 2%nat with
  | Some name => name
  | None => "undefined"
  end.

(** [data[key] = r]: an own property, except that assigning an object to
    [__proto__] sets the prototype. *)
Definition set_property (key : string) (r : DeviceStats) (data : snapshot)
  : snapshot :=
  if String.eqb key "__proto__" then {| own := own data; proto := Some r |}
  else {| own := <[key := r]> (own data); proto := proto data |}.

(** The body of the [forEach] callback. *)
Definition parse_line (data : snapshot) (line : string) : snapshot :=
  let values := split_ws (trim line) in
  set_property (key_of values) (stats_of values) data.

(** Lines 51-73, on the text of the file. *)
Definition parse_diskstats (diskstats : string) : snapshot :=
  let lines := split_char is_nl (trim diskstats) in
  foldl parse_line empty_object lines.

(** [_parseProcDiskstats]: [file] is what [fs.readFileSync] finds, [None]
    when it throws. *)
Definition _parseProcDiskstats (file : option string) : result snapshot :=
  match file with
  | Some diskstats => Ok (parse_diskstats diskstats)
  | None => Throw SystemError
  end.

(** What [data[key]] evaluates to. *)
Inductive entry : Type :=
  | EUndefined
  | EStats (r : DeviceStats)
  | EString (s : string)
  | EBuiltin (name : string).

(** The own property [name] of a record, when it has one. *)
Definition stats_property (r : DeviceStats) (name : string)
  : option (option string) :=
  if String.eqb name "deviceNumber" then Some (deviceNumber r)
  else if String.eqb name "deviceNumberMinor" then Some (deviceNumberMinor r)
  else if String.eqb name "readsCompleted" then Some (readsCompleted r)
  else if String.eqb name "readsMerged" then Some (readsMerged r)
  else if String.eqb name "sectorsRead" then Some (sectorsRead r)
  else if String.eqb name "msReading" then Some (msReading r)
  else if String.eqb name "writesCompleted" then Some (writesCompleted r)
  else if String.eqb name "writesMerged" then Some (writesMerged r)
  else if String.eqb name "sectorsWritten" then Some (sectorsWritten r)
  else if String.eqb name "msWriting" then Some (msWriting r)
  else if String.eqb name "iosPending" then Some (iosPending r)
  else if String.eqb name "msIo" then Some (msIo r)
  else if String.eqb name "msWeightedIo" then Some (msWeightedIo r)
  else None.

Definition entry_of_value (v : value) : entry :=
  match v with
  | VBuiltin name => EBuiltin name
  | _ => EUndefined
  end.

Definition entry_of_field (f : option string) : entry :=
  match f with
  | Some s => EString s
  | None => EUndefined
  end.

(** [data[key]]: an own property, else the prototype chain. *)
Definition get_device (data : snapshot) (key : string) : entry :=
  match own data !! key with
  | Some r => EStats r
  | None =>
      match proto data with
      | None => entry_of_value (inherited key)
      | Some p =>
          if String.eqb key "__proto__" then EStats p
          else
            match stats_property p key with
            | Some f => entry_of_field f
            | None => entry_of_value (inherited key)
            end
      end
  end.

(** A field of a record as a value. *)
Definition field_value (f : option string) : value :=
  match f with
  | Some s => VString s
  | None => VUndefined
  end.

(** [e.sectorsRead] or [e.sectorsWritten]: reading a property of
    [undefined] throws; a string, a function and [Object.prototype] have no
    such property. *)
Definition get_counter (counter : DeviceStats -> option string) (e : entry)
  : result value :=
  match e with
  | EUndefined => Throw TypeError
  | EStats r => Ok (field_value (counter r))
  | EString _ | EBuiltin _ => Ok VUndefined
  end.

#[global] Instance result_bind : MBind result :=
  fun A B (k : A -> result B) (c : result A) =>
    match c with
    | Ok a => k a
    | Throw e => Throw e
    end.

(** ** [_bytesTo] *)

Definition KiB : number := num_of_Z 1024.
Definition MiB : number := num_mul (num_of_Z 1024) KiB.
Definition GiB : number := num_mul (num_of_Z 1024) MiB.

(** The object literal of lines 81-86.  Its properties are evaluated in
    order, and each [bytes /= c] stores the quotient back into [bytes]: the
    later entries divide what the earlier ones left. *)
Definition unit_table (bytes : number) : gmap string value :=
  let bytes0 := bytes in
  let bytes1 := num_div bytes0 KiB in
  let bytes2 := num_div bytes1 MiB in
  let bytes3 := num_div bytes2 GiB in
  <["GiB" := VNumber bytes3]>
    (<["MiB" := VNumber bytes2]>
       (<["KiB" := VNumber bytes1]> {["bytes" := VNumber bytes0]})).

(** [o[key]] on an object literal. *)
Definition get_property (o : gmap string value) (key : string) : value :=
  match o !! key with
  | Some v => v
  | None => inherited key
  end.

Definition quoted (s : string) : string :=
  String dquote (s +:+ String dquote EmptyString).

(** The template literal of line 91. *)
Definition unknown_units_message (units : value) : string :=
  "'[disk-stats] Error: Unknown units " +:+ quoted (ToString units) +:+
  ", use one of: " +:+ quoted "bytes" +:+ " (default), " +:+ quoted "KiB" +:+
  ", " +:+ quoted "MiB" +:+ " or " +:+ quoted "GiB" +:+ "';".

(** [_bytesTo(bytes, units)]: the value returned and what was logged.
    [console.log] returns [undefined]. *)
Definition _bytesTo (bytes : number) (units : value) : value * list event :=
  let converted := get_property (unit_table bytes) (ToString units) in
  if truthy converted then (converted, [])
  else (VUndefined, [ConsoleLog (unknown_units_message units)]).

(** ** [usageRead] and [usageWrite] *)

(** What the environment answers during one call: the file as the two reads
    find it, and [process.hrtime(time)] at the second one, in whole seconds
    and nanoseconds. *)
Record world : Type := {
  first_read : option string;
  second_read : option string;
  hrtime_diff : Z * Z
}.

(** How a call ends for its caller: it throws before it returns a promise,
    the promise it returned is resolved, or that promise is settled by
    nothing.  The body after [await] runs in the [async] executor of
    [new Promise]; what it throws rejects the executor's own promise, which
    nobody holds, and [resolve] is never called.  [NeverSettles e] is this
    end: the caller's promise stays as it is, and [e] is the reason of a
    rejection no handler receives.  The host is told of such a rejection,
    and Node, unless the process listens for them, prints the error and
    ends the process. *)
Inductive completion : Type :=
  | Throws (e : error)
  | Resolves (v : value)
  | NeverSettles (e : error).

Record run : Type := {
  opts_after : gmap string value;
  effects : list event;
  outcome : completion
}.

(** [opts.name] on the caller's object, taken to be an ordinary object whose
    prototype defines none of the four option names. *)
Definition get_option (opts : gmap string value) (name : string) : value :=
  default VUndefined (opts !! name).

(** [opts.name = opts.name || d]. *)
Definition set_default (name : string) (d : value) (opts : gmap string value)
  : gmap string value :=
  <[name := js_or (get_option opts name) d]> opts.

(** Lines 100-103. *)
Definition apply_defaults (opts : gmap string value) : gmap string value :=
  let opts := set_default "sectorSizeBytes" (VNumber (num_of_Z 512)) opts in
  let opts := set_default "sampleMs" (VNumber (num_of_Z 1000)) opts in
  let opts := set_default "device" (VString "sda") opts in
  set_default "units" (VString "bytes") opts.

(** [_parseProcDiskstats()[opts.device].sectorsRead] (or [.sectorsWritten]). *)
Definition read_counter (counter : DeviceStats -> option string)
    (file : option string) (device : value) : result value :=
  data ← _parseProcDiskstats file;
  get_counter counter (get_device data (ToString device)).

(** [diff[0] + diff[1] * 1e-9]. *)
Definition diffSeconds (diff : Z * Z) : number :=
  num_add (num_of_Z (fst diff))
          (num_mul (num_of_Z (snd diff)) (round_decimal false 1 (-9))).

(** Lines 117-118: [(delta1 - delta0) * sectorSizeBytes / (t * t)]. *)
Definition totalBytesPerSecond (delta0 delta1 sectorSizeBytes : value)
    (t : number) : number :=
  let totalBytes :=
    num_mul (num_sub (ToNumber delta1) (ToNumber delta0))
            (ToNumber sectorSizeBytes) in
  num_div totalBytes (num_mul t t).

(** The body shared by [usageRead] and [usageWrite], which differ in the
    counter they read. *)
Definition usage (counter : DeviceStats -> option string)
    (opts : gmap string value) (w : world) : run :=
  let opts := apply_defaults opts in
  match read_counter counter (first_read w) (get_option opts "device") with
  | Throw e => {| opts_after := opts; effects := []; outcome := Throws e |}
  | Ok delta0 =>
      let waited := [Delay (get_option opts "sampleMs")] in
      match read_counter counter (second_read w) (get_option opts "device") with
      | Throw e =>
          {| opts_after := opts; effects := waited; outcome := NeverSettles e |}
      | Ok delta1 =>
          let rate :=
            totalBytesPerSecond delta0 delta1
              (get_option opts "sectorSizeBytes")
              (diffSeconds (hrtime_diff w)) in
          let '(converted, logged) := _bytesTo rate (get_option opts "units") in
          {| opts_after := opts;
             effects := waited ++ logged;
             outcome := Resolves converted |}
      end
  end.

Definition usageRead : gmap string value -> world -> run := usage sectorsRead.

Definition usageWrite : gmap string value -> world -> run :=
  usage sectorsWritten.

(** [raw]. *)
Definition raw (file : option string) : result snapshot :=
  _parseProcDiskstats file.

(** ** The text of a statistics file *)

Fixpoint string_forall (p : ascii -> bool) (s : string) : bool :=
  match s with
  | EmptyString => true
  | String c s' => p c && string_forall p s'
  end.

(** Blanks inside a line: white space other than the line feed. *)
Definition blank (s : string) : bool :=
  string_forall (fun c => is_ws c && negb (is_nl c)) s.

(** No line feed inside. *)
Definition no_nl (s : string) : bool :=
  string_forall (fun c => negb (is_nl c)) s.

(** A field: at least one character, none of them white space. *)
Definition token (s : string) : bool :=
  negb (is_empty s) && string_forall (fun c => negb (is_ws c)) s.

(** One line of the file as the kernel prints it: blanks, the first field,
    then each further field behind a separator, and blanks again. *)
Record row : Type := {
  lead : string;
  first_field : string;
  more : list (string * string);
  trail : string
}.

Definition fields (r : row) : list string :=
  first_field r :: map snd (more r).

Definition render_more (cells : list (string * string)) (trail : string)
  : string :=
  foldr (fun cell acc => fst cell +:+ snd cell +:+ acc) trail cells.

Definition render (r : row) : string :=
  lead r +:+ first_field r +:+ render_more (more r) (trail r).

Definition wf_cell (cell : string * string) : bool :=
  negb (is_empty (fst cell)) && blank (fst cell) && token (snd cell).

Definition wf_row (r : row) : bool :=
  blank (lead r) && token (first_field r) && forallb wf_cell (more r)
  && blank (trail r).

(** The file: every line ends in a line feed. *)
Definition file_text (rows : list row) : string :=
  foldr (fun r acc => render r +:+ String newline acc) EmptyString rows.

(** What [parse_line] stores for a line with the given fields. *)
Definition store (data : snapshot) (values : list string) : snapshot :=
  set_property (key_of values) (stats_of values) data.

(** The own properties after one more line. *)
Definition insert_stats (m : gmap string DeviceStats) (values : list string)
  : gmap string DeviceStats :=
  <[key_of values := stats_of values]> m.

(** The key a line is stored under: its third field. *)
Definition device_name (r : row) : string := key_of (fields r).

(** A number that [ToBoolean] takes for false: a zero or [NaN]. *)
Definition falsy_number (x : number) : bool :=
  match x with
  | S754_zero _ | S754_nan => true
  | _ => false
  end.

(** A finite number above zero. *)
Definition positive_finite (x : number) : bool :=
  match x with
  | S754_finite false _ _ => true
  | _ => false
  end.

(** Zero or above, and not [NaN]. *)
Definition non_negative (x : number) : bool :=
  match x with
  | S754_zero _ | S754_infinity false | S754_finite false _ _ => true
  | _ => false
  end.

(** The units [_bytesTo] knows. *)
Definition recognized_units : list string := ["bytes"; "KiB"; "MiB"; "GiB"].

(** The four option names and their defaults. *)
Definition default_of (name : string) : option value :=
  if String.eqb name "sectorSizeBytes" then Some (VNumber (num_of_Z 512))
  else if String.eqb name "sampleMs" then Some (VNumber (num_of_Z 1000))
  else if String.eqb name "device" then Some (VString "sda")
  else if String.eqb name "units" then Some (VString "bytes")
  else None.

(** The file read holds a line for [device], with record [r]. *)
Definition present (file : option string) (device : string) (r : DeviceStats)
  : Prop :=
  exists text, file = Some text /\ own (parse_diskstats text) !! device = Some r.

(** The file is read, and [data[device]] is [undefined] in it. *)
Definition absent (file : option string) (device : string) : Prop :=
  exists text,
    file = Some text /\ get_device (parse_diskstats text) device = EUndefined.

(** The device a call samples, once the defaults are in. *)
Definition device_of (opts : gmap string value) : string :=
  ToString (get_option (apply_defaults opts) "device").

Definition resolved (c : completion) : bool :=
  match c with
  | Resolves _ => true
  | _ => false
  end.

(** The reason of the rejection no handler receives, when a call ends in
    one. *)
Definition unhandled_rejection (c : completion) : option error :=
  match c with
  | NeverSettles e => Some e
  | _ => None
  end.

(** ** Sample inputs *)

(** A line with one space between its fields. *)
Definition row_of (lead : string) (fs : list string) : row :=
  {| lead := lead;
     first_field := hd EmptyString fs;
     more := map (fun f => (" ", f)) (tl fs);
     trail := EmptyString |}.

Definition sda_row : row :=
  row_of "   " ["8"; "0"; "sda"; "100"; "20"; "9007199254740993"; "40";
                "50"; "60"; "7000"; "80"; "0"; "90"; "100"].

Definition sda1_row : row :=
  row_of "   " ["8"; "1"; "sda1"; "1"; "2"; "3"; "4"; "5"; "6"; "7"; "8";
                "9"; "10"; "11"].

(** A line of fourteen fields whose third one is [__proto__]. *)
Definition proto_row : row :=
  row_of "" ["8"; "0"; "__proto__"; "1"; "2"; "3"; "4"; "5"; "6"; "7"; "8";
             "9"; "10"; "11"].

(** A line that stops after its sixth field. *)
Definition short_row : row := row_of " " ["8"; "0"; "sda"; "1"; "2"; "3"].

(** [sda] with the given sector counters, the rest as in a quiet system. *)
Definition sda_line (sectors_read sectors_written : string) : row :=
  row_of "   " ["8"; "0"; "sda"; "100"; "20"; sectors_read; "40"; "50"; "60";
                sectors_written; "80"; "0"; "90"; "100"].

Definition sdb_row : row :=
  row_of "   " ["8"; "16"; "sdb"; "1"; "2"; "3"; "4"; "5"; "6"; "7"; "8";
                "9"; "10"; "11"].

(** One second between two reads of a file that shows [sda] only, its read
    counter going from 1000 to 3000 and its write counter standing still. *)
Definition busy_world : world :=
  {| first_read := Some (file_text [sda_line "1000" "7000"]);
     second_read := Some (file_text [sda_line "3000" "7000"]);
     hrtime_diff := (1, 0) |}.

(** One second between two reads of a file that does not change. *)
Definition quiet_world : world :=
  {| first_read := Some (file_text [sda_line "1000" "7000"]);
     second_read := Some (file_text [sda_line "1000" "7000"]);
     hrtime_diff := (1, 0) |}.

(** One second in which [sda] read 2048 sectors of 512 bytes: one mebibyte. *)
Definition mebibyte_world : world :=
  {| first_read := Some (file_text [sda_line "1000" "7000"]);
     second_read := Some (file_text [sda_line "3048" "7000"]);
     hrtime_diff := (1, 0) |}.

(** [sda] is gone at the second read. *)
Definition unplugged_world : world :=
  {| first_read := Some (file_text [sda_line "1000" "7000"]);
     second_read := Some (file_text [sdb_row]);
     hrtime_diff := (1, 0) |}.

(** [q] shifted left by [n] binary places. *)
Definition shl (q : positive) (n : nat) : positive := Nat.iter n xO q.

(** The binary64 number of an integer below [2 ^ 53]: its digits moved up
    to fill the 53 places of the mantissa. *)
Definition normal (q : positive) : number :=
  let d := Z.pos (digits2_pos q) in
  S754_finite false (shl q (Z.to_nat (53 - d))) (d - 53).

(** A positive finite number whose mantissa is full and whose exponent lies
    between [lo] and [hi]. *)
Definition normal_between (lo hi : Z) (x : number) : Prop :=
  exists m e,
    x = S754_finite false m e /\ Z.pos (digits2_pos m) = 53 /\ lo <= e <= hi.

Definition is_digit (c : ascii) : bool :=
  match digit_of 10 c with Some _ => true | None => false end.

(** The integer a counter of the file denotes: a non-empty string of
    decimal digits. *)
Definition decimal (s : string) : option Z :=
  if is_empty s then None else digits_value 10 0 s.

(** Counters beyond [2 ^ 53]: one sector read within one second. *)
Definition huge_world : world :=
  {| first_read := Some (file_text [sda_line "9007199254740992" "7000"]);
     second_read := Some (file_text [sda_line "9007199254740993" "7000"]);
     hrtime_diff := (1, 0) |}.

(** ** What the further properties speak of *)

(** The columns the parser reads of a line: the first fourteen. *)
Definition columns (r : row) : list string := take 14 (fields r).

(** No white space inside. *)
Definition nonws (s : string) : bool :=
  string_forall (fun c => negb (is_ws c)) s.

(** The first character is there and is no white space. *)
Definition starts_nonws (s : string) : bool :=
  match s with
  | EmptyString => false
  | String c _ => negb (is_ws c)
  end.

(** A field that is [undefined], or a non-empty text free of white space. *)
Definition clean_field (f : option string) : bool :=
  match f with
  | Some s => token s
  | None => true
  end.

Definition clean_record (r : DeviceStats) : bool :=
  clean_field (deviceNumber r) && clean_field (deviceNumberMinor r)
  && clean_field (readsCompleted r) && clean_field (readsMerged r)
  && clean_field (sectorsRead r) && clean_field (msReading r)
  && clean_field (writesCompleted r) && clean_field (writesMerged r)
  && clean_field (sectorsWritten r) && clean_field (msWriting r)
  && clean_field (iosPending r) && clean_field (msIo r)
  && clean_field (msWeightedIo r).

(** The record of a line that holds white space only: an empty
    [deviceNumber], and [undefined] in every other field. *)
Definition blank_record : DeviceStats := stats_of [EmptyString].

(** What holds of every own property of the object the parser builds. *)
Definition entry_ok (k : string) (r : DeviceStats) : Prop :=
  token k = true /\
  (clean_record r = true \/ (k = "undefined" /\ r = blank_record)).


(** [-x]. *)
Definition num_neg : number -> number := SFopp.

(** Zero or below, and not [NaN]. *)
Definition non_positive (x : number) : bool :=
  match x with
  | S754_zero _ | S754_infinity true | S754_finite true _ _ => true
  | _ => false
  end.

(** How far the digits shifted out of a mantissa reach towards the next
    one: 0 for nothing, 1 for less than a half, 2 for a half, 3 for more. *)
Definition loc_code (r : shr_record) : Z :=
  (if shr_r r then 2 else 0) + (if shr_s r then 1 else 0).

(** The order of the numbers two shifted mantissas stand for. *)
Definition shr_le (a b : shr_record) : Prop :=
  shr_m a < shr_m b \/ (shr_m a = shr_m b /\ loc_code a <= loc_code b).

(** [R] without its last [k] binary places, rounded to nearest, ties to
    even. *)
Definition rounded (R : Z) (k : nat) : Z :=
  let r := Nat.iter k shr_1 {| shr_m := R; shr_r := false; shr_s := false |} in
  round_nearest_even (shr_m r) (loc_of_shr_record r).

(** A finite number below zero. *)
Definition negative_finite (x : number) : bool :=
  match x with
  | S754_finite true _ _ => true
  | _ => false
  end.

(** [2 ^ k] as a binary64 number. *)
Definition pow2 (k : Z) : number := S754_finite false (2 ^ 52) (k - 52).

(** A line of [sda] as newer kernels print it, with four more columns. *)
Definition wide_row : row :=
  row_of "   " ["8"; "0"; "sda"; "100"; "20"; "3000"; "40"; "50"; "60";
                "7000"; "80"; "0"; "90"; "100"; "0"; "0"; "0"; "0"].

(** The fourteen columns of [wide_row], set with a tab and a space between
    them and a carriage return behind. *)
Definition tabbed_row : row :=
  {| lead := EmptyString;
     first_field := "8";
     more := map (fun f => (String (ascii_of_nat 9) " ", f))
               ["0"; "sda"; "100"; "20"; "3000"; "40"; "50"; "60"; "7000";
                "80"; "0"; "90"; "100"];
     trail := String (ascii_of_nat 13) EmptyString |}.

(** A line of [sda] that stops before its sector counters. *)
Definition stub_row : row := row_of " " ["8"; "0"; "sda"; "100"; "20"].

(** [sda] has lost its counters at the second read. *)
Definition stub_world : world :=
  {| first_read := Some (file_text [sda_line "1000" "7000"]);
     second_read := Some (file_text [stub_row]);
     hrtime_diff := (1, 0) |}.

(** The file cannot be read any more at the second read. *)
Definition vanished_world : world :=
  {| first_read := Some (file_text [sda_line "1000" "7000"]);
     second_read := None;
     hrtime_diff := (1, 0) |}.

(** Two seconds between the reads, in which [sda] read 2000 sectors and
    wrote 512. *)
Definition slow_world : world :=
  {| first_read := Some (file_text [sda_line "1000" "7000"]);
     second_read := Some (file_text [sda_line "3000" "7512"]);
     hrtime_diff := (2, 0) |}.

(** A second and a half between the reads of [busy_world]. *)
Definition uneven_world : world :=
  {| first_read := Some (file_text [sda_line "1000" "7000"]);
     second_read := Some (file_text [sda_line "3000" "7000"]);
     hrtime_diff := (1, 500000000) |}.

(** Counters beyond [2 ^ 53]: one sector read within two seconds. *)
Definition huge_slow_world : world :=
  {| first_read := Some (file_text [sda_line "9007199254740992" "7000"]);
     second_read := Some (file_text [sda_line "9007199254740993" "7000"]);
     hrtime_diff := (2, 0) |}.

(** The read counter of [sda] as in [busy_world], among other disks and
    with other figures in the column of the sectors written. *)
Definition crowded_world : world :=
  {| first_read := Some (file_text [sdb_row; sda_line "1000" "1"]);
     second_read := Some (file_text [sda_line "3000" "2"; sda1_row]);
     hrtime_diff := (1, 0) |}.

(** The read counter of [sda] starts anew between the reads. *)
Definition reset_world : world :=
  {| first_read := Some (file_text [sda_line "3000" "7000"]);
     second_read := Some (file_text [sda_line "1000" "7000"]);
     hrtime_diff := (1, 0) |}.

(** * Properties *)

(** A decidable fact about sample data, settled by evaluating its decision. *)
Ltac by_decision := refine (bool_decide_unpack _ _); vm_compute; exact I.

(** A fact about what a sample file holds, settled by parsing the file. *)
Ltac by_parsing := eexists; split; [reflexivity|vm_compute; reflexivity].

(** ** Strings *)

Lemma app_cons c s t : String c s +:+ t = String c (s +:+ t).
Proof. reflexivity. Qed.

Lemma app_nil_l t : EmptyString +:+ t = t.
Proof. reflexivity. Qed.

Lemma app_nil_r s : s +:+ EmptyString = s.
Proof. induction s as [|c s IH]; [reflexivity|]. by rewrite app_cons, IH. Qed.

Lemma app_assoc s t u : (s +:+ t) +:+ u = s +:+ t +:+ u.
Proof.
  induction s as [|c s IH]; [reflexivity|]. by rewrite !app_cons, IH.
Qed.

Lemma string_forall_app p s t :
  string_forall p (s +:+ t) = string_forall p s && string_forall p t.
Proof.
  induction s as [|c s IH]; [reflexivity|].
  rewrite app_cons. simpl. rewrite IH. by rewrite andb_assoc.
Qed.

Lemma string_forall_impl (p q : ascii -> bool) s :
  (forall c, p c = true -> q c = true) ->
  string_forall p s = true -> string_forall q s = true.
Proof.
  intros Hpq. induction s as [|c s IH]; [done|]. simpl.
  intros [Hc Hs]%andb_true_iff. rewrite (Hpq _ Hc). simpl. auto.
Qed.

(** *** [trim] *)

Lemma trim_start_ws b s :
  string_forall is_ws b = true -> trim_start (b +:+ s) = trim_start s.
Proof.
  induction b as [|c b IH]; [done|]. simpl.
  intros [Hc Hb]%andb_true_iff. rewrite Hc. auto.
Qed.

Lemma trim_start_nonblank x y :
  string_forall is_ws x = false -> trim_start (x +:+ y) = trim_start x +:+ y.
Proof.
  induction x as [|c x IH]; [done|]. simpl.
  destruct (is_ws c); simpl; [auto|done].
Qed.

Lemma trim_start_idem s : trim_start (trim_start s) = trim_start s.
Proof.
  induction s as [|c s IH]; [done|]. simpl.
  destruct (is_ws c) eqn:Hc; [done|]. simpl. by rewrite Hc.
Qed.

Lemma trim_end_ws_iff s :
  trim_end s = EmptyString <-> string_forall is_ws s = true.
Proof.
  induction s as [|c s IH]; [done|]. simpl.
  destruct (is_ws c); simpl.
  - destruct (trim_end s) eqn:Hs; simpl.
    + split; [intros _; by apply IH|done].
    + split; [done|]. intros Hall. by apply IH in Hall.
  - split; done.
Qed.

Lemma trim_end_ws s b :
  string_forall is_ws b = true -> trim_end (s +:+ b) = trim_end s.
Proof.
  intros Hb. induction s as [|c s IH].
  - rewrite app_nil_l. by apply trim_end_ws_iff.
  - rewrite app_cons. simpl. by rewrite IH.
Qed.

Lemma trim_end_keep s t :
  trim_end t <> EmptyString -> trim_end (s +:+ t) = s +:+ trim_end t.
Proof.
  intros Ht. induction s as [|c s IH]; [done|].
  rewrite !app_cons. simpl. rewrite IH.
  destruct (s +:+ trim_end t) eqn:E.
  - destruct s; [|done]. rewrite app_nil_l in E. done.
  - simpl. by rewrite andb_false_r.
Qed.

Lemma trim_end_idem s : trim_end (trim_end s) = trim_end s.
Proof.
  induction s as [|c s IH]; [done|]. simpl.
  destruct (is_ws c && is_empty (trim_end s)) eqn:E; [done|].
  simpl. by rewrite IH, E.
Qed.

Lemma trim_start_ws_nil s :
  string_forall is_ws s = true -> trim_start s = EmptyString.
Proof.
  induction s as [|c s IH]; [done|]. simpl.
  intros [-> Hs]%andb_true_iff. auto.
Qed.

Lemma trim_start_trim_end s : trim_start (trim_end s) = trim_end (trim_start s).
Proof.
  induction s as [|c s IH]; [done|]. simpl.
  destruct (is_ws c) eqn:Hc; simpl.
  - destruct (trim_end s) eqn:Hs; simpl.
    + apply trim_end_ws_iff in Hs. by rewrite (trim_start_ws_nil _ Hs).
    + rewrite Hc. by rewrite <- IH.
  - by rewrite Hc.
Qed.

Lemma trim_trim_end s : trim (trim_end s) = trim s.
Proof. unfold trim. by rewrite trim_start_trim_end, trim_end_idem. Qed.

Lemma trim_trim_start s : trim (trim_start s) = trim s.
Proof. unfold trim. by rewrite trim_start_idem. Qed.

Lemma string_forall_trim_start p s :
  string_forall p s = true -> string_forall p (trim_start s) = true.
Proof.
  induction s as [|c s IH]; [done|]. simpl.
  intros [Hc Hs]%andb_true_iff. destruct (is_ws c); [auto|].
  simpl. by rewrite Hc, Hs.
Qed.

Lemma string_forall_trim_end p s :
  string_forall p s = true -> string_forall p (trim_end s) = true.
Proof.
  induction s as [|c s IH]; [done|]. simpl.
  intros [Hc Hs]%andb_true_iff.
  destruct (is_ws c && is_empty (trim_end s)); [done|].
  simpl. rewrite Hc. simpl. auto.
Qed.

(** *** [split] *)

Lemma is_nl_is_ws c : is_nl c = true -> is_ws c = true.
Proof.
  unfold is_nl, is_ws. intros H%Nat.eqb_eq. by rewrite H.
Qed.

Lemma split_char_no_nl s : no_nl s = true -> split_char is_nl s = [s].
Proof.
  unfold no_nl. induction s as [|c s IH]; [done|]. simpl.
  intros [Hc Hs]%andb_true_iff. apply negb_true_iff in Hc. rewrite Hc.
  by rewrite (IH Hs).
Qed.

Lemma split_char_line a u :
  no_nl a = true ->
  split_char is_nl (a +:+ String newline u) = a :: split_char is_nl u.
Proof.
  unfold no_nl. induction a as [|c a IH]; [done|]. simpl.
  intros [Hc Ha]%andb_true_iff. apply negb_true_iff in Hc. rewrite Hc.
  by rewrite (IH Ha).
Qed.

Lemma split_ws_from_nonempty b s : split_ws_from b s <> [].
Proof.
  revert b. induction s as [|c s IH]; intros b; [done|]. simpl.
  destruct (is_ws c).
  - destruct b; [apply IH|done].
  - by destruct (split_ws_from false s).
Qed.

Lemma split_ws_token t :
  string_forall (fun c => negb (is_ws c)) t = true -> split_ws_from false t = [t].
Proof.
  induction t as [|c t IH]; [done|]. simpl.
  intros [Hc Ht]%andb_true_iff. apply negb_true_iff in Hc. rewrite Hc.
  by rewrite (IH Ht).
Qed.

(** A field in front joins the first piece of what follows. *)
Lemma split_ws_token_app t y :
  string_forall (fun c => negb (is_ws c)) t = true ->
  split_ws_from false (t +:+ y) =
    match split_ws_from false y with
    | p :: ps => (t +:+ p) :: ps
    | [] => [t]
    end.
Proof.
  induction t as [|c t IH].
  - intros _. rewrite app_nil_l.
    destruct (split_ws_from false y) eqn:E; [|done].
    by apply split_ws_from_nonempty in E.
  - simpl. intros [Hc Ht]%andb_true_iff. apply negb_true_iff in Hc.
    rewrite Hc, (IH Ht).
    destruct (split_ws_from false y) eqn:E; [|done].
    by apply split_ws_from_nonempty in E.
Qed.

Lemma split_ws_run b y :
  string_forall is_ws b = true ->
  split_ws_from true (b +:+ y) = split_ws_from true y.
Proof.
  induction b as [|c b IH]; [done|]. simpl.
  intros [Hc Hb]%andb_true_iff. rewrite Hc. auto.
Qed.

Lemma split_ws_after_run t y :
  token t = true ->
  split_ws_from true (t +:+ y) = split_ws_from false (t +:+ y).
Proof.
  unfold token. destruct t as [|c t]; [done|]. simpl.
  intros [Hc _]%andb_true_iff. apply negb_true_iff in Hc. by rewrite Hc.
Qed.

(** A separator behind a field ends the piece. *)
Lemma split_ws_separator sep t y :
  wf_cell (sep, t) = true ->
  split_ws_from false (sep +:+ t +:+ y) =
    EmptyString :: split_ws_from false (t +:+ y).
Proof.
  unfold wf_cell. simpl. intros [[Hne Hsep]%andb_true_iff Ht]%andb_true_iff.
  assert (Hws : string_forall is_ws sep = true).
  { revert Hsep. apply string_forall_impl. by intros c [? _]%andb_true_iff. }
  destruct sep as [|c sep]; [done|]. simpl in *.
  apply andb_true_iff in Hws as [Hc Hws]. rewrite Hc.
  by rewrite split_ws_run, split_ws_after_run.
Qed.

(** ** Lines *)

Lemma token_nonws t :
  token t = true -> string_forall (fun c => negb (is_ws c)) t = true.
Proof. unfold token. by intros [_ ?]%andb_true_iff. Qed.

Lemma token_trim_end t y : token t = true -> trim_end (t +:+ y) <> EmptyString.
Proof.
  unfold token. destruct t as [|c t]; [done|]. simpl.
  intros [Hc _]%andb_true_iff. apply negb_true_iff in Hc. by rewrite Hc.
Qed.

Lemma token_trim_end_id t : token t = true -> trim_end t = t.
Proof.
  intros Ht%token_nonws. induction t as [|c t IH]; [done|]. simpl in *.
  apply andb_true_iff in Ht as [Hc Ht]. apply negb_true_iff in Hc.
  by rewrite Hc, (IH Ht).
Qed.

Lemma blank_ws b : blank b = true -> string_forall is_ws b = true.
Proof. apply string_forall_impl. by intros c [? _]%andb_true_iff. Qed.

Lemma blank_no_nl b : blank b = true -> no_nl b = true.
Proof. apply string_forall_impl. by intros c [_ ?]%andb_true_iff. Qed.

Lemma token_no_nl t : token t = true -> no_nl t = true.
Proof.
  intros Ht%token_nonws. revert Ht. apply string_forall_impl.
  intros c Hc. apply negb_true_iff. apply negb_true_iff in Hc.
  destruct (is_nl c) eqn:E; [|done]. apply is_nl_is_ws in E. congruence.
Qed.

(** The text of the further fields, without what trails them. *)
Lemma trim_end_render_more t cells trail :
  token t = true -> forallb wf_cell cells = true -> blank trail = true ->
  trim_end (t +:+ render_more cells trail) =
    t +:+ render_more cells EmptyString.
Proof.
  revert t. induction cells as [|[sep f] cells IH]; intros t Ht Hcells Htrail.
  - simpl. rewrite app_nil_r, trim_end_ws by by apply blank_ws.
    by apply token_trim_end_id.
  - simpl in *. apply andb_true_iff in Hcells as [Hcell Hcells].
    assert (Hf : token f = true).
    { unfold wf_cell in Hcell. simpl in Hcell.
      by apply andb_true_iff in Hcell as [_ ?]. }
    rewrite <- (app_assoc t sep), trim_end_keep.
    + by rewrite (IH f Hf Hcells Htrail), app_assoc.
    + by apply token_trim_end.
Qed.

Lemma split_ws_render_more t cells :
  token t = true -> forallb wf_cell cells = true ->
  split_ws (t +:+ render_more cells EmptyString) = t :: map snd cells.
Proof.
  unfold split_ws. revert t.
  induction cells as [|[sep f] cells IH]; intros t Ht Hcells.
  - simpl. rewrite app_nil_r. by apply split_ws_token, token_nonws.
  - simpl in *. apply andb_true_iff in Hcells as [Hcell Hcells].
    assert (Hf : token f = true).
    { unfold wf_cell in Hcell. simpl in Hcell.
      by apply andb_true_iff in Hcell as [_ ?]. }
    rewrite split_ws_token_app by by apply token_nonws.
    rewrite split_ws_separator by done.
    by rewrite app_nil_r, (IH f Hf Hcells).
Qed.

(** The fields the code reads off a well-formed line are the fields the
    line was written from. *)
Lemma split_ws_trim_render r :
  wf_row r = true -> split_ws (trim (render r)) = fields r.
Proof.
  unfold wf_row, render, fields, trim.
  intros [[[Hlead Hfirst]%andb_true_iff Hmore]%andb_true_iff Htrail]%andb_true_iff.
  rewrite trim_start_ws by by apply blank_ws.
  assert (Hhead : forall y, trim_start (first_field r +:+ y) = first_field r +:+ y).
  { intros y. unfold token in Hfirst. destruct (first_field r) as [|c t]; [done|].
    simpl in *. apply andb_true_iff in Hfirst as [Hc _].
    apply negb_true_iff in Hc. by rewrite Hc. }
  rewrite Hhead, trim_end_render_more by done.
  by apply split_ws_render_more.
Qed.

Lemma wf_row_no_nl r : wf_row r = true -> no_nl (render r) = true.
Proof.
  unfold wf_row, render, no_nl.
  intros [[[Hlead Hfirst]%andb_true_iff Hmore]%andb_true_iff Htrail]%andb_true_iff.
  rewrite !string_forall_app.
  apply blank_no_nl in Hlead, Htrail. apply token_no_nl in Hfirst.
  unfold no_nl in *. rewrite Hlead, Hfirst. simpl.
  induction (more r) as [|[sep f] cells IH]; [done|]. simpl in *.
  apply andb_true_iff in Hmore as [Hcell Hcells].
  unfold wf_cell in Hcell. simpl in Hcell.
  apply andb_true_iff in Hcell as [[_ Hsep]%andb_true_iff Hf].
  apply blank_no_nl in Hsep. apply token_no_nl in Hf. unfold no_nl in *.
  rewrite !string_forall_app, Hsep, Hf. simpl. auto.
Qed.

Lemma wf_row_nonblank r y :
  wf_row r = true -> string_forall is_ws (render r +:+ y) = false.
Proof.
  unfold wf_row, render.
  intros [[[_ Hfirst]%andb_true_iff _]%andb_true_iff _]%andb_true_iff.
  rewrite !string_forall_app.
  unfold token in Hfirst. destruct (first_field r) as [|c t]; [done|].
  simpl in *. apply andb_true_iff in Hfirst as [Hc _].
  apply negb_true_iff in Hc. rewrite Hc. simpl. by rewrite andb_false_r.
Qed.

Lemma trim_start_nil_ws s :
  trim_start s = EmptyString -> string_forall is_ws s = true.
Proof.
  induction s as [|c s IH]; [done|]. simpl.
  destruct (is_ws c); [auto|done].
Qed.

Lemma trim_start_keeps_nonblank s :
  string_forall is_ws s = false -> string_forall is_ws (trim_start s) = false.
Proof.
  intros Hs. destruct (string_forall is_ws (trim_start s)) eqn:E; [|done].
  apply trim_start_ws_nil in E. rewrite trim_start_idem in E.
  apply trim_start_nil_ws in E. congruence.
Qed.

(** ** Files *)

(** The lines behind the first one, once the text has lost what trails it. *)
Lemma lines_after a rows :
  no_nl a = true -> string_forall is_ws a = false ->
  forallb wf_row rows = true ->
  map trim (split_char is_nl (trim_end (a +:+ String newline (file_text rows))))
  = trim a :: map (fun r => trim (render r)) rows.
Proof.
  revert a. induction rows as [|r rows IH]; intros a Hnl Hnb Hrows.
  - simpl. rewrite trim_end_ws by done.
    rewrite split_char_no_nl by by apply string_forall_trim_end.
    simpl. by rewrite trim_trim_end.
  - simpl in *. apply andb_true_iff in Hrows as [Hr Hrows].
    set (x := render r +:+ String newline (file_text rows)).
    assert (Hx : trim_end x <> EmptyString).
    { intros E%trim_end_ws_iff. unfold x in E.
      by rewrite wf_row_nonblank in E. }
    rewrite trim_end_keep.
    + simpl. destruct (trim_end x) eqn:E; [done|]. simpl. rewrite <- E.
      rewrite split_char_line by done. simpl. f_equal.
      unfold x. apply IH; [by apply wf_row_no_nl| |done].
      rewrite <- (app_nil_r (render r)). by apply wf_row_nonblank.
    + simpl. by destruct (trim_end x).
Qed.

(** The lines the code iterates over, trimmed as the callback trims them,
    are the lines of the file. *)
Lemma lines_of_file_text r rows :
  forallb wf_row (r :: rows) = true ->
  map trim (split_char is_nl (trim (file_text (r :: rows))))
  = map (fun r => trim (render r)) (r :: rows).
Proof.
  simpl. intros [Hr Hrows]%andb_true_iff. unfold trim at 2.
  assert (Hnb : string_forall is_ws (render r) = false).
  { rewrite <- (app_nil_r (render r)). by apply wf_row_nonblank. }
  rewrite trim_start_nonblank by done.
  rewrite lines_after; [|by apply string_forall_trim_start, wf_row_no_nl
                       |by apply trim_start_keeps_nonblank|done].
  by rewrite trim_trim_start.
Qed.

Lemma foldl_parse_line data lines :
  foldl parse_line data lines
  = foldl store data (map split_ws (map trim lines)).
Proof.
  revert data. induction lines as [|l lines IH]; intros data; [done|].
  simpl. by rewrite IH.
Qed.

(** Parsing a file of well-formed lines stores, line after line, the record
    of the line's fields under the line's third field. *)
Lemma parse_file_text rows :
  rows <> [] -> forallb wf_row rows = true ->
  parse_diskstats (file_text rows) = foldl store empty_object (map fields rows).
Proof.
  intros Hne Hrows. destruct rows as [|r rows]; [done|].
  unfold parse_diskstats. rewrite foldl_parse_line, lines_of_file_text by done.
  f_equal. rewrite map_map. apply map_ext_in. intros r' Hin.
  apply split_ws_trim_render.
  rewrite forallb_forall in Hrows. by apply Hrows.
Qed.

(** ** The object the parser builds *)

Lemma foldl_store data vs :
  Forall (fun v => key_of v <> "__proto__") vs ->
  foldl store data vs
  = {| own := foldl insert_stats (own data) vs; proto := proto data |}.
Proof.
  revert data. induction vs as [|v vs IH]; intros data Hvs.
  - by destruct data.
  - inversion_clear Hvs as [|? ? Hv Hvs']. simpl. rewrite (IH _ Hvs').
    unfold store, set_property.
    apply String.eqb_neq in Hv. by rewrite Hv.
Qed.

Lemma foldl_insert_frame (m : gmap string DeviceStats) vs k :
  k ∉ map key_of vs -> foldl insert_stats m vs !! k = m !! k.
Proof.
  revert m. induction vs as [|v vs IH]; intros m Hk; [done|].
  simpl in *. apply not_elem_of_cons in Hk as [Hne Hk].
  rewrite (IH _ Hk). unfold insert_stats. by rewrite lookup_insert_ne.
Qed.

Lemma foldl_insert_hit (m : gmap string DeviceStats) vs v :
  NoDup (map key_of vs) -> v ∈ vs ->
  foldl insert_stats m vs !! key_of v = Some (stats_of v).
Proof.
  revert m. induction vs as [|v0 vs IH]; intros m Hnd Hin.
  - by apply elem_of_nil in Hin.
  - simpl in *. apply NoDup_cons in Hnd as [Hfresh Hnd].
    apply elem_of_cons in Hin as [->|Hin]; [|by apply IH].
    rewrite foldl_insert_frame by done.
    unfold insert_stats. by rewrite lookup_insert_eq.
Qed.

Lemma foldl_insert_size (m : gmap string DeviceStats) vs :
  NoDup (map key_of vs) -> (forall v, v ∈ vs -> m !! key_of v = None) ->
  size (foldl insert_stats m vs) = (size m + length vs)%nat.
Proof.
  revert m. induction vs as [|v vs IH]; intros m Hnd Hm; simpl.
  - lia.
  - apply NoDup_cons in Hnd as [Hfresh Hnd]. rewrite IH; [|done|].
    + unfold insert_stats. rewrite map_size_insert_None; [lia|].
      apply Hm. by left.
    + intros v' Hv'. unfold insert_stats. rewrite lookup_insert_ne.
      * apply Hm. by right.
      * intros E. apply Hfresh. rewrite E. by apply list_elem_of_fmap_2.
Qed.

(** What the parser returns for a file of well-formed lines with distinct
    names, none of them [__proto__]: one own property per line, holding the
    record of that line's fields, under an untouched prototype. *)
Lemma parse_well_formed rows :
  rows <> [] -> forallb wf_row rows = true ->
  NoDup (map device_name rows) -> "__proto__" ∉ map device_name rows ->
  let data := parse_diskstats (file_text rows) in
  size (own data) = length rows /\ proto data = None /\
  forall r, r ∈ rows -> own data !! device_name r = Some (stats_of (fields r)).
Proof.
  intros Hne Hwf Hnd Hproto. simpl.
  rewrite parse_file_text by done.
  assert (Hkeys : map key_of (map fields rows) = map device_name rows).
  { by rewrite map_map. }
  rewrite foldl_store.
  2:{ apply Forall_forall. intros v Hv E. apply Hproto.
      rewrite <- Hkeys, <- E. by apply (list_elem_of_fmap_2 key_of). }
  simpl. split; [|split; [done|]].
  - rewrite foldl_insert_size, length_map; [done|by rewrite Hkeys|done].
  - intros r Hr. unfold device_name.
    apply foldl_insert_hit; [by rewrite Hkeys|].
    by apply list_elem_of_fmap_2.
Qed.

(** ** Claims about the parser *)

(** C4, as the code has it.  For a file of N >= 1 well-formed lines, each
    with 14 fields, whose third fields are pairwise distinct and none of
    which is [__proto__], [raw] returns an object with exactly N own
    properties, keyed by the third field of each line; the other thirteen
    fields fill the record positionally, each stored as the very text of the
    file, so that no digit of a counter is lost. *)
Theorem raw_well_formed_file rows :
  rows <> [] -> forallb wf_row rows = true ->
  Forall (fun r => length (fields r) = 14%nat) rows ->
  NoDup (map device_name rows) -> "__proto__" ∉ map device_name rows ->
  exists data,
    raw (Some (file_text rows)) = Ok data /\
    size (own data) = length rows /\ proto data = None /\
    forall r, r ∈ rows ->
      exists f0 f1 f2 f3 f4 f5 f6 f7 f8 f9 f10 f11 f12 f13,
        fields r = [f0; f1; f2; f3; f4; f5; f6; f7; f8; f9; f10; f11; f12; f13]
        /\ own data !! f2 =
           Some {| deviceNumber := Some f0; deviceNumberMinor := Some f1;
                   readsCompleted := Some f3; readsMerged := Some f4;
                   sectorsRead := Some f5; msReading := Some f6;
                   writesCompleted := Some f7; writesMerged := Some f8;
                   sectorsWritten := Some f9; msWriting := Some f10;
                   iosPending := Some f11; msIo := Some f12;
                   msWeightedIo := Some f13 |}.
Proof.
  intros Hne Hwf Hlen Hnd Hproto.
  destruct (parse_well_formed rows Hne Hwf Hnd Hproto) as (Hsize & Hp & Hget).
  exists (parse_diskstats (file_text rows)).
  split; [done|]. split; [done|]. split; [done|].
  intros r Hr. specialize (Hget r Hr).
  rewrite Forall_forall in Hlen. specialize (Hlen r Hr).
  unfold device_name in Hget. destruct (fields r) as [|f0 l]; [done|].
  do 13 (destruct l as [|? l]; [done|]). destruct l; [|done].
  by repeat eexists.
Qed.

(** The two-line sample file satisfies the hypotheses of C4, and its large
    counter comes back digit for digit. *)
Lemma raw_well_formed_file_witness :
  exists data,
    raw (Some (file_text [sda_row; sda1_row])) = Ok data /\
    size (own data) = 2%nat /\ proto data = None /\
    (sectorsRead <$> own data !! "sda") = Some (Some "9007199254740993").
Proof.
  destruct (raw_well_formed_file [sda_row; sda1_row])
    as (data & Hraw & Hsize & Hproto & Hrows).
  - done.
  - reflexivity.
  - repeat constructor.
  - by_decision.
  - by_decision.
  - exists data. split; [done|]. split; [done|]. split; [done|].
    destruct (Hrows sda_row) as (f0 & f1 & f2 & f3 & f4 & f5 & f6 & f7 & f8
      & f9 & f10 & f11 & f12 & f13 & Hf & Hget); [by left|].
    injection Hf as <- <- <- <- <- <- <- <- <- <- <- <- <- <-.
    by rewrite Hget.
Defined.

(** C4 as stated fails for N = 0 and for a line named [__proto__].  The
    empty file has no line, and [raw] returns one property, [undefined],
    whose record holds an empty [deviceNumber] and nothing else; a single
    well-formed line named [__proto__] leaves no own property at all. *)
Lemma raw_empty_file :
  file_text [] = EmptyString /\
  raw (Some (file_text [])) =
    Ok {| own := {[ "undefined" := stats_of [EmptyString] ]}; proto := None |} /\
  size (own (parse_diskstats (file_text []))) = 1%nat /\
  wf_row proto_row = true /\ length (fields proto_row) = 14%nat /\
  size (own (parse_diskstats (file_text [proto_row]))) = 0%nat.
Proof. repeat split; vm_compute; reflexivity. Qed.

(** C6, as the code has it.  A well-formed line with fewer than 14 fields
    is neither skipped nor refused: the read succeeds, and the line's record
    is stored under its name with the fields the line has in their places
    and nothing ([undefined]) in the others, the last one included. *)
Theorem parse_short_line rows r :
  rows <> [] -> forallb wf_row rows = true ->
  NoDup (map device_name rows) -> "__proto__" ∉ map device_name rows ->
  r ∈ rows -> (length (fields r) < 14)%nat ->
  exists data,
    raw (Some (file_text rows)) = Ok data /\
    size (own data) = length rows /\
    own data !! device_name r = Some (stats_of (fields r)) /\
    msWeightedIo (stats_of (fields r)) = None.
Proof.
  intros Hne Hwf Hnd Hproto Hr Hlen.
  destruct (parse_well_formed rows Hne Hwf Hnd Hproto) as (Hsize & _ & Hget).
  exists (parse_diskstats (file_text rows)).
  split; [done|]. split; [done|]. split; [by apply Hget|].
  unfold stats_of, msWeightedIo. apply lookup_ge_None_2. lia.
Qed.

Lemma parse_short_line_witness :
  exists data,
    raw (Some (file_text [sda1_row; short_row])) = Ok data /\
    size (own data) = 2%nat /\
    own data !! "sda" = Some (stats_of ["8"; "0"; "sda"; "1"; "2"; "3"]) /\
    msWeightedIo (stats_of ["8"; "0"; "sda"; "1"; "2"; "3"]) = None.
Proof.
  apply (parse_short_line [sda1_row; short_row] short_row).
  - done.
  - reflexivity.
  - by_decision.
  - by_decision.
  - right. left.
  - simpl. lia.
Defined.

(** C6 as stated fails: the six-field line is stored, with [undefined] in
    the seven fields it has no column for. *)
Lemma raw_short_line :
  (length (fields short_row) <? 14)%nat = true /\
  raw (Some (file_text [short_row])) =
    Ok {| own :=
            {[ "sda" :=
                 {| deviceNumber := Some "8"; deviceNumberMinor := Some "0";
                    readsCompleted := Some "1"; readsMerged := Some "2";
                    sectorsRead := Some "3"; msReading := None;
                    writesCompleted := None; writesMerged := None;
                    sectorsWritten := None; msWriting := None;
                    iosPending := None; msIo := None;
                    msWeightedIo := None |} ]};
          proto := None |}.
Proof. split; vm_compute; reflexivity. Qed.

(** ** [_bytesTo] *)

Lemma unit_table_bytes b : unit_table b !! "bytes" = Some (VNumber b).
Proof. unfold unit_table. by simplify_map_eq. Qed.

Lemma unit_table_KiB b :
  unit_table b !! "KiB" = Some (VNumber (num_div b KiB)).
Proof. unfold unit_table. by simplify_map_eq. Qed.

Lemma unit_table_MiB b :
  unit_table b !! "MiB" = Some (VNumber (num_div (num_div b KiB) MiB)).
Proof. unfold unit_table. by simplify_map_eq. Qed.

Lemma unit_table_GiB b :
  unit_table b !! "GiB"
  = Some (VNumber (num_div (num_div (num_div b KiB) MiB) GiB)).
Proof. unfold unit_table. by simplify_map_eq. Qed.

Lemma unit_table_other b u :
  u ∉ recognized_units -> unit_table b !! u = None.
Proof.
  unfold recognized_units, unit_table. intros Hu.
  rewrite !not_elem_of_cons in Hu. destruct Hu as (? & ? & ? & ? & _).
  by simplify_map_eq.
Qed.

(** C2, on the code.  Every entry of the table but the first divides what
    the entry before left in [bytes]: [KiB] is [v / 1024], but [MiB] is
    [v / 1024 / 1024^2] and [GiB] is [v / 1024 / 1024^2 / 1024^3].  For
    1048576 the code answers 1024 in [KiB], and 0.0009765625 rather than 1 in
    [MiB]; so does [usageRead] for a device that read one mebibyte in one
    second. *)
Theorem bytesTo_divides_in_sequence :
  (forall v,
     get_property (unit_table v) "bytes" = VNumber v /\
     get_property (unit_table v) "KiB" = VNumber (num_div v (num_of_Z 1024)) /\
     get_property (unit_table v) "MiB"
     = VNumber (num_div (num_div v (num_of_Z 1024)) (num_of_Z (1024 ^ 2))) /\
     get_property (unit_table v) "GiB"
     = VNumber (num_div (num_div (num_div v (num_of_Z 1024))
                                 (num_of_Z (1024 ^ 2)))
                        (num_of_Z (1024 ^ 3)))) /\
  _bytesTo (num_of_Z 1048576) (VString "KiB") = (VNumber (num_of_Z 1024), []) /\
  _bytesTo (num_of_Z 1048576) (VString "MiB")
  = (VNumber (StringToNumber "0.0009765625"), []) /\
  NumberToString (num_div (num_of_Z 1048576) (num_of_Z (1024 ^ 2))) = "1" /\
  outcome (usageRead (<[ "units" := VString "MiB" ]> ∅) mebibyte_world)
  = Resolves (VNumber (StringToNumber "0.0009765625")).
Proof.
  split; [|repeat split; vm_compute; reflexivity].
  intros v. unfold get_property.
  rewrite unit_table_bytes, unit_table_KiB, unit_table_MiB, unit_table_GiB.
  repeat split.
Qed.

(** ** One call *)

Lemma read_counter_present counter file device r :
  present file (ToString device) r ->
  read_counter counter file device = Ok (field_value (counter r)).
Proof.
  intros (text & -> & Hget). unfold read_counter. simpl.
  unfold get_device. by rewrite Hget.
Qed.

Lemma read_counter_absent counter file device :
  absent file (ToString device) ->
  read_counter counter file device = Throw TypeError.
Proof.
  intros (text & -> & Hget). unfold read_counter. simpl. by rewrite Hget.
Qed.

Section Sampled.

(** A call that finds its device at both reads. *)
Variables (opts : gmap string value) (w : world) (r0 r1 : DeviceStats).
Hypothesis first_lookup : present (first_read w) (device_of opts) r0.
Hypothesis second_lookup : present (second_read w) (device_of opts) r1.

Let cfg := apply_defaults opts.
Let elapsedSeconds := diffSeconds (hrtime_diff w).

(** Such a call waits once and resolves with what [_bytesTo] makes of the
    rate. *)
Lemma usage_resolves counter :
  let rate :=
    totalBytesPerSecond (field_value (counter r0)) (field_value (counter r1))
      (get_option cfg "sectorSizeBytes") elapsedSeconds in
  usage counter opts w =
    {| opts_after := cfg;
       effects := Delay (get_option cfg "sampleMs")
                  :: snd (_bytesTo rate (get_option cfg "units"));
       outcome := Resolves (fst (_bytesTo rate (get_option cfg "units"))) |}.
Proof.
  simpl. unfold usage, device_of in *.
  rewrite (read_counter_present _ _ _ _ first_lookup),
    (read_counter_present _ _ _ _ second_lookup).
  by destruct (_bytesTo _ _).
Qed.

End Sampled.

(** ** Units the table does not hold *)

Lemma inherited_other u : u ∉ object_prototype_names -> inherited u = VUndefined.
Proof. intros Hu. unfold inherited. by rewrite bool_decide_eq_false_2. Qed.

Lemma bytesTo_unknown v u :
  u ∉ recognized_units -> u ∉ object_prototype_names ->
  _bytesTo v (VString u)
  = (VUndefined, [ConsoleLog (unknown_units_message (VString u))]).
Proof.
  intros Hu Hp. unfold _bytesTo, get_property. simpl.
  by rewrite unit_table_other, inherited_other.
Qed.

(** C3, as the code has it.  For a unit string that is neither one of the
    four units nor the name of a property every object inherits, the
    conversion throws nothing: it logs the unknown-units message and returns
    [undefined], and [usageRead] and [usageWrite] resolve with [undefined]. *)
Theorem unknown_unit_is_logged v u opts w r0 r1 :
  u ∉ recognized_units -> u ∉ object_prototype_names ->
  get_option (apply_defaults opts) "units" = VString u ->
  present (first_read w) (device_of opts) r0 ->
  present (second_read w) (device_of opts) r1 ->
  _bytesTo v (VString u)
  = (VUndefined, [ConsoleLog (unknown_units_message (VString u))]) /\
  outcome (usageRead opts w) = Resolves VUndefined /\
  outcome (usageWrite opts w) = Resolves VUndefined.
Proof.
  intros Hu Hp Hunits H0 H1. split; [by apply bytesTo_unknown|].
  unfold usageRead, usageWrite.
  rewrite !(usage_resolves opts w r0 r1 H0 H1). simpl.
  by rewrite Hunits, !bytesTo_unknown.
Qed.

Lemma unknown_unit_is_logged_witness :
  _bytesTo (num_of_Z 1048576) (VString "TiB")
  = (VUndefined, [ConsoleLog (unknown_units_message (VString "TiB"))]) /\
  outcome (usageRead {[ "units" := VString "TiB" ]} busy_world)
  = Resolves VUndefined /\
  outcome (usageWrite {[ "units" := VString "TiB" ]} busy_world)
  = Resolves VUndefined.
Proof.
  refine (unknown_unit_is_logged (num_of_Z 1048576) "TiB"
            {[ "units" := VString "TiB" ]} busy_world
            (stats_of (fields (sda_line "1000" "7000")))
            (stats_of (fields (sda_line "3000" "7000"))) _ _ _ _ _).
  - by_decision.
  - by_decision.
  - vm_compute. reflexivity.
  - by_parsing.
  - by_parsing.
Defined.

(** C3 as stated fails: for [TiB] nothing is thrown.  The conversion
    returns [undefined] after one [console.log], and the call resolves. *)
Lemma bytesTo_TiB :
  _bytesTo (num_of_Z 1048576) (VString "TiB")
  = (VUndefined, [ConsoleLog (unknown_units_message (VString "TiB"))]) /\
  usageRead {[ "units" := VString "TiB" ]} busy_world
  = {| opts_after :=
         apply_defaults {[ "units" := VString "TiB" ]};
       effects :=
         [Delay (VNumber (num_of_Z 1000));
          ConsoleLog (unknown_units_message (VString "TiB"))];
       outcome := Resolves VUndefined |}.
Proof. split; vm_compute; reflexivity. Qed.

(** ** A rate of zero *)

Lemma truthy_number x : truthy (VNumber x) = negb (falsy_number x).
Proof. by destruct x. Qed.

Lemma falsy_sub_self x : falsy_number (num_sub x x) = true.
Proof.
  destruct x as [s|s| |s m e]; simpl.
  - by destruct s.
  - by destruct s.
  - done.
  - unfold num_sub, SFsub. by rewrite Z.sub_diag.
Qed.

Lemma falsy_mul x y : falsy_number x = true -> falsy_number (num_mul x y) = true.
Proof. by destruct x, y. Qed.

Lemma falsy_div x y : falsy_number x = true -> falsy_number (num_div x y) = true.
Proof. by destruct x, y. Qed.

Lemma recognized_cases u :
  u ∈ recognized_units -> u = "bytes" \/ u = "KiB" \/ u = "MiB" \/ u = "GiB".
Proof.
  unfold recognized_units. rewrite !elem_of_cons, elem_of_nil. tauto.
Qed.

(** Whatever the unit, a zero or [NaN] goes in and [undefined] comes out. *)
Lemma bytesTo_falsy v u :
  falsy_number v = true -> u ∈ recognized_units ->
  _bytesTo v (VString u)
  = (VUndefined, [ConsoleLog (unknown_units_message (VString u))]).
Proof.
  intros Hv Hu. unfold _bytesTo, get_property. simpl.
  apply recognized_cases in Hu as [E|[E|[E|E]]]; subst u.
  - by rewrite unit_table_bytes, truthy_number, Hv.
  - rewrite unit_table_KiB, truthy_number.
    rewrite falsy_div by done. reflexivity.
  - rewrite unit_table_MiB, truthy_number.
    rewrite falsy_div by (repeat apply falsy_div; done). reflexivity.
  - rewrite unit_table_GiB, truthy_number.
    rewrite falsy_div by (repeat apply falsy_div; done). reflexivity.
Qed.

Lemma idle_rate_falsy d sectorSize t :
  falsy_number (totalBytesPerSecond d d sectorSize t) = true.
Proof.
  unfold totalBytesPerSecond. by apply falsy_div, falsy_mul, falsy_sub_self.
Qed.

(** C9.  For a recognized unit, a converted value of zero is taken for a
    failed lookup: [_bytesTo] logs the unknown-units message and returns
    [undefined] instead of 0.  Hence on an idle device, whose counter is the
    same at both reads, [usageRead] and [usageWrite] resolve with
    [undefined]. *)
Theorem zero_is_reported_as_undefined u :
  u ∈ recognized_units ->
  (forall v s,
     get_property (unit_table v) u = VNumber (S754_zero s) ->
     _bytesTo v (VString u)
     = (VUndefined, [ConsoleLog (unknown_units_message (VString u))])) /\
  (forall opts w r0 r1,
     get_option (apply_defaults opts) "units" = VString u ->
     present (first_read w) (device_of opts) r0 ->
     present (second_read w) (device_of opts) r1 ->
     (sectorsRead r1 = sectorsRead r0 ->
      outcome (usageRead opts w) = Resolves VUndefined) /\
     (sectorsWritten r1 = sectorsWritten r0 ->
      outcome (usageWrite opts w) = Resolves VUndefined)).
Proof.
  intros Hu. split.
  - intros v s Hz. unfold _bytesTo. simpl. by rewrite Hz.
  - intros opts w r0 r1 Hunits H0 H1. unfold usageRead, usageWrite.
    rewrite !(usage_resolves opts w r0 r1 H0 H1). simpl. rewrite Hunits.
    split; intros ->; by rewrite bytesTo_falsy by (done || apply idle_rate_falsy).
Qed.

Lemma zero_is_reported_as_undefined_witness :
  _bytesTo (S754_zero false) (VString "bytes")
  = (VUndefined, [ConsoleLog (unknown_units_message (VString "bytes"))]) /\
  outcome (usageRead ∅ quiet_world) = Resolves VUndefined /\
  outcome (usageWrite ∅ quiet_world) = Resolves VUndefined.
Proof.
  assert (Hu : "bytes" ∈ recognized_units).
  { by_decision. }
  destruct (zero_is_reported_as_undefined "bytes" Hu) as [Hconv Hidle].
  split; [exact (Hconv (S754_zero false) false eq_refl)|].
  assert (Hp : present (first_read quiet_world) (device_of ∅)
                 (stats_of (fields (sda_line "1000" "7000")))).
  { by_parsing. }
  assert (Hunits : get_option (apply_defaults ∅) "units" = VString "bytes").
  { vm_compute. reflexivity. }
  destruct (Hidle ∅ quiet_world _ _ Hunits Hp Hp) as [Hr Hw].
  split; [exact (Hr eq_refl)|exact (Hw eq_refl)].
Defined.

(** ** The options object *)

(** What the caller's object holds after lines 100-103: under each of the
    four option names its old value when that was truthy and the default
    otherwise, and under every other name what it held before. *)
Lemma apply_defaults_lookup (opts : gmap string value) k :
  apply_defaults opts !! k =
    match default_of k with
    | Some d => Some (js_or (get_option opts k) d)
    | None => opts !! k
    end.
Proof.
  unfold default_of, apply_defaults, set_default, get_option.
  destruct (String.eqb_spec k "sectorSizeBytes") as [->|H1];
    [by simplify_map_eq|].
  destruct (String.eqb_spec k "sampleMs") as [->|H2]; [by simplify_map_eq|].
  destruct (String.eqb_spec k "device") as [->|H3]; [by simplify_map_eq|].
  destruct (String.eqb_spec k "units") as [->|H4]; [by simplify_map_eq|].
  by simplify_map_eq.
Qed.

Lemma usage_opts_after counter opts w :
  opts_after (usage counter opts w) = apply_defaults opts.
Proof.
  unfold usage. destruct (read_counter _ (first_read w) _); [|done].
  destruct (read_counter _ (second_read w) _); [|done].
  by destruct (_bytesTo _ _).
Qed.

(** C8, as the code has it.  [usageRead] and [usageWrite] write the
    defaults into the caller's object: after the call, however it ends, each
    of the four option names holds its old value when that was truthy and
    its default otherwise; every other property is as it was. *)
Theorem usage_writes_defaults_in_place opts w k :
  opts_after (usageRead opts w) !! k =
    match default_of k with
    | Some d => Some (js_or (get_option opts k) d)
    | None => opts !! k
    end /\
  opts_after (usageWrite opts w) = opts_after (usageRead opts w).
Proof.
  unfold usageRead, usageWrite. rewrite !usage_opts_after.
  split; [apply apply_defaults_lookup|done].
Qed.

(** C8 as stated fails: called with an empty object, [usageRead] leaves
    four properties in it. *)
Lemma usage_fills_empty_options :
  opts_after (usageRead ∅ busy_world)
  = <[ "units" := VString "bytes" ]>
      (<[ "device" := VString "sda" ]>
         (<[ "sampleMs" := VNumber (num_of_Z 1000) ]>
            {[ "sectorSizeBytes" := VNumber (num_of_Z 512) ]})) /\
  size (opts_after (usageRead ∅ busy_world)) = 4%nat /\
  size (∅ : gmap string value) = 0%nat.
Proof. repeat split; vm_compute; reflexivity. Qed.

(** ** Falsy options *)

Lemma default_truthy k d : default_of k = Some d -> truthy d = true.
Proof.
  unfold default_of. repeat case_match; intros; by simplify_eq.
Qed.

(** An option given a falsy value, given its default, or not given at all:
    the defaults come out the same. *)
Lemma apply_defaults_falsy (opts : gmap string value) k v d :
  default_of k = Some d -> truthy v = false ->
  apply_defaults (<[k := v]> opts) = apply_defaults (<[k := d]> opts) /\
  apply_defaults (<[k := v]> opts) = apply_defaults (delete k opts).
Proof.
  intros Hd Hv. pose proof (default_truthy _ _ Hd) as Htd.
  split; apply map_eq; intros k'; rewrite !apply_defaults_lookup;
    unfold get_option, js_or.
  - destruct (decide (k = k')) as [<-|Hne].
    + rewrite Hd, !lookup_insert_eq. simpl. by rewrite Hv, Htd.
    + by rewrite !lookup_insert_ne.
  - destruct (decide (k = k')) as [<-|Hne].
    + rewrite Hd, lookup_insert_eq, lookup_delete_eq. simpl. by rewrite Hv.
    + by rewrite lookup_insert_ne, lookup_delete_ne.
Qed.

Lemma usage_after_defaults counter opts opts' w :
  apply_defaults opts = apply_defaults opts' ->
  usage counter opts w = usage counter opts' w.
Proof. unfold usage. by intros ->. Qed.

Lemma apply_defaults_written (opts : gmap string value) k v d :
  default_of k = Some d -> truthy v = false ->
  apply_defaults (<[k := v]> opts) !! k = Some d.
Proof.
  intros Hd Hv. rewrite apply_defaults_lookup, Hd.
  unfold get_option, js_or. rewrite lookup_insert_eq. simpl. by rewrite Hv.
Qed.

(** C10.  An option supplied with a falsy value (0, the empty string,
    [null], ...) is taken for one not supplied and replaced by the default:
    after the call the object holds the default under the option's name, and
    the call is in every respect the call with the default supplied.  It
    does and ends as the call with the option left out, and leaves the same
    value under every name.  So [sampleMs: 0] is [sampleMs: 1000],
    [sectorSizeBytes: 0] is 512, [device: ""] is [sda] and [units: ""] is
    [bytes]. *)
Theorem falsy_option_is_default opts w k v d :
  default_of k = Some d -> truthy v = false ->
  opts_after (usageRead (<[k := v]> opts) w) !! k = Some d /\
  opts_after (usageWrite (<[k := v]> opts) w) !! k = Some d /\
  usageRead (<[k := v]> opts) w = usageRead (<[k := d]> opts) w /\
  usageWrite (<[k := v]> opts) w = usageWrite (<[k := d]> opts) w /\
  effects (usageRead (<[k := v]> opts) w)
  = effects (usageRead (delete k opts) w) /\
  outcome (usageRead (<[k := v]> opts) w)
  = outcome (usageRead (delete k opts) w) /\
  effects (usageWrite (<[k := v]> opts) w)
  = effects (usageWrite (delete k opts) w) /\
  outcome (usageWrite (<[k := v]> opts) w)
  = outcome (usageWrite (delete k opts) w) /\
  (forall k',
     opts_after (usageRead (<[k := v]> opts) w) !! k'
     = opts_after (usageRead (delete k opts) w) !! k' /\
     opts_after (usageWrite (<[k := v]> opts) w) !! k'
     = opts_after (usageWrite (delete k opts) w) !! k').
Proof.
  intros Hd Hv.
  destruct (apply_defaults_falsy opts k v d Hd Hv) as [Hdef Hdel].
  pose proof (apply_defaults_written opts k v d Hd Hv) as Hw.
  pose proof (fun c => usage_after_defaults c _ _ w Hdef) as Hrun.
  pose proof (fun c => usage_after_defaults c _ _ w Hdel) as Hrun'.
  unfold usageRead, usageWrite. rewrite !usage_opts_after.
  repeat split; try done; try (by rewrite Hrun'); by rewrite Hdel.
Qed.

(** [sampleMs: 0]: the object holds 1000 afterwards, and the call is the
    call with [sampleMs: 1000] and does what the call without [sampleMs]
    does. *)
Lemma falsy_option_is_default_witness :
  opts_after (usageRead (<[ "sampleMs" := VNumber (S754_zero false) ]> ∅)
                busy_world) !! "sampleMs"
  = Some (VNumber (num_of_Z 1000)) /\
  effects (usageRead (<[ "sampleMs" := VNumber (S754_zero false) ]> ∅)
             busy_world)
  = effects (usageRead (delete "sampleMs" ∅) busy_world) /\
  usageWrite (<[ "sampleMs" := VNumber (S754_zero false) ]> ∅) busy_world
  = usageWrite (<[ "sampleMs" := VNumber (num_of_Z 1000) ]> ∅) busy_world.
Proof.
  destruct (falsy_option_is_default ∅ busy_world "sampleMs"
              (VNumber (S754_zero false)) (VNumber (num_of_Z 1000))
              eq_refl eq_refl)
    as (Hwritten & _ & _ & Hwrite & Heffects & _).
  split; [exact Hwritten|]. split; [exact Heffects|exact Hwrite].
Defined.

(** ** A device that is not there *)

(** [data[device]] is [undefined] when no line of the file bears the name,
    no line replaced the prototype, and the name is none that every object
    inherits. *)
Lemma absent_by_lookup text device :
  own (parse_diskstats text) !! device = None ->
  proto (parse_diskstats text) = None ->
  device ∉ object_prototype_names ->
  absent (Some text) device.
Proof.
  intros Hown Hproto Hname. exists text. split; [done|].
  unfold get_device. by rewrite Hown, Hproto, inherited_other.
Qed.

Lemma usage_first_lookup_fails counter opts w :
  absent (first_read w) (device_of opts) ->
  usage counter opts w
  = {| opts_after := apply_defaults opts; effects := [];
       outcome := Throws TypeError |}.
Proof.
  intros H0. unfold usage, device_of in *.
  by rewrite (read_counter_absent _ _ _ H0).
Qed.

Lemma usage_second_lookup_fails counter opts w r0 :
  present (first_read w) (device_of opts) r0 ->
  absent (second_read w) (device_of opts) ->
  usage counter opts w
  = {| opts_after := apply_defaults opts;
       effects := [Delay (get_option (apply_defaults opts) "sampleMs")];
       outcome := NeverSettles TypeError |}.
Proof.
  intros H0 H1. unfold usage, device_of in *.
  by rewrite (read_counter_present _ _ _ _ H0), (read_counter_absent _ _ _ H1).
Qed.

(** C5, as the code has it.  The device is looked up in both snapshots, and
    when a lookup finds [undefined] the call gives no result: its promise is
    never resolved with a value.  When it is the first lookup that fails,
    [usageRead] and [usageWrite] throw a [TypeError] at their caller at once,
    before any delay is asked for. *)
Theorem missing_device_gives_no_result opts w r0 :
  absent (first_read w) (device_of opts) \/
  (present (first_read w) (device_of opts) r0 /\
   absent (second_read w) (device_of opts)) ->
  resolved (outcome (usageRead opts w)) = false /\
  resolved (outcome (usageWrite opts w)) = false /\
  (absent (first_read w) (device_of opts) ->
   outcome (usageRead opts w) = Throws TypeError /\
   effects (usageRead opts w) = [] /\
   outcome (usageWrite opts w) = Throws TypeError /\
   effects (usageWrite opts w) = []).
Proof.
  unfold usageRead, usageWrite. intros Hmissing. split; [|split].
  - destruct Hmissing as [H0|[H0 H1]].
    + by rewrite usage_first_lookup_fails.
    + by rewrite (usage_second_lookup_fails _ _ _ r0).
  - destruct Hmissing as [H0|[H0 H1]].
    + by rewrite usage_first_lookup_fails.
    + by rewrite (usage_second_lookup_fails _ _ _ r0).
  - intros H0. by rewrite !usage_first_lookup_fails.
Qed.

(** [sdb] is not in the sample file: the call throws before it waits. *)
Lemma missing_device_gives_no_result_witness :
  resolved (outcome (usageRead (<[ "device" := VString "sdb" ]> ∅) busy_world))
  = false /\
  resolved (outcome (usageWrite (<[ "device" := VString "sdb" ]> ∅) busy_world))
  = false /\
  outcome (usageRead (<[ "device" := VString "sdb" ]> ∅) busy_world)
  = Throws TypeError /\
  effects (usageRead (<[ "device" := VString "sdb" ]> ∅) busy_world) = [] /\
  outcome (usageWrite (<[ "device" := VString "sdb" ]> ∅) busy_world)
  = Throws TypeError /\
  effects (usageWrite (<[ "device" := VString "sdb" ]> ∅) busy_world) = [].
Proof.
  assert (H0 : absent (first_read busy_world)
                 (device_of (<[ "device" := VString "sdb" ]> ∅))).
  { by_parsing. }
  destruct (missing_device_gives_no_result
              (<[ "device" := VString "sdb" ]> ∅) busy_world
              (stats_of []) (or_introl H0)) as (Hr & Hw & Hthrow).
  split; [exact Hr|]. split; [exact Hw|]. exact (Hthrow H0).
Defined.

(** C5 as stated fails at the second snapshot: when [sda] has gone by then,
    no error reaches the caller, and the promise it holds stays pending.
    For a name every object inherits, such as [constructor], no lookup fails
    at all. *)
Lemma unplugged_device_never_settles :
  usageRead ∅ unplugged_world
  = {| opts_after := apply_defaults ∅;
       effects := [Delay (VNumber (num_of_Z 1000))];
       outcome := NeverSettles TypeError |} /\
  outcome (usageRead {[ "device" := VString "constructor" ]} busy_world)
  = Resolves VUndefined.
Proof. split; vm_compute; reflexivity. Qed.

(** ** Arithmetic on counters *)

(** *** Signs *)

Lemma iter_pos_invariant {A} (P : A -> Prop) (f : A -> A) :
  (forall x, P x -> P (f x)) -> forall p x, P x -> P (SpecFloat.iter_pos f p x).
Proof.
  intros Hf. induction p as [p IH|p IH|]; intros x Hx; simpl; auto.
Qed.

Lemma shr_1_nonneg r : 0 <= shr_m r -> 0 <= shr_m (shr_1 r).
Proof.
  destruct r as [m r s]. simpl. destruct m as [|p|p]; [done| |lia].
  intros _. destruct p; simpl; lia.
Qed.

Lemma shr_fexp_nonneg m e l :
  0 <= m -> 0 <= shr_m (fst (shr_fexp prec emax m e l)).
Proof.
  intros Hm. unfold shr_fexp, shr.
  assert (H0 : 0 <= shr_m (shr_record_of_loc m l)).
  { by destruct l as [|[]]. }
  destruct (fexp prec emax (Zdigits2 m + e) - e) as [|p|p]; simpl; try done.
  apply (iter_pos_invariant (fun r => 0 <= shr_m r)); [apply shr_1_nonneg|done].
Qed.

Lemma round_nearest_even_nonneg m l : 0 <= m -> 0 <= round_nearest_even m l.
Proof.
  intros Hm. destruct l as [|[]]; simpl; try lia.
  destruct (Z.even m); lia.
Qed.

Lemma binary_round_aux_nonneg m e l :
  0 <= m -> non_negative (binary_round_aux prec emax false m e l) = true.
Proof.
  intros Hm. unfold binary_round_aux.
  pose proof (shr_fexp_nonneg m e l Hm) as H1.
  destruct (shr_fexp prec emax m e l) as [mrs' e']. simpl in H1.
  pose proof (shr_fexp_nonneg _ e' loc_Exact
                (round_nearest_even_nonneg _ (loc_of_shr_record mrs') H1)) as H2.
  destruct (shr_fexp prec emax _ e' loc_Exact) as [mrs'' e'']. simpl in H2.
  destruct (shr_m mrs'') as [|p|p]; [done| |lia].
  by destruct (e'' <=? emax - prec).
Qed.

Lemma num_mul_nonneg x y :
  non_negative x = true -> positive_finite y = true ->
  x <> S754_infinity false ->
  non_negative (num_mul x y) = true.
Proof.
  destruct x as [[]|[]| |[] m e]; try done; destruct y as [[]|[]| |[] m' e']; try done.
  intros _ _ _. unfold num_mul, SFmul. simpl. by apply binary_round_aux_nonneg.
Qed.

Lemma num_div_nonneg x y :
  non_negative x = true -> positive_finite y = true ->
  non_negative (num_div x y) = true.
Proof.
  destruct x as [[]|[]| |[] m e]; try done; destruct y as [[]|[]| |[] m' e']; try done.
  intros _ _. unfold num_div, SFdiv. simpl.
  unfold SFdiv_core_binary.
  set (m1 := match _ - _ - _ with Z0 => Z.pos m | Z.pos _ => _ | Z.neg _ => 0 end).
  assert (H1 : 0 <= m1).
  { unfold m1. destruct (_ - _ - _); [lia| |lia]. apply Z.shiftl_nonneg. lia. }
  pose proof (Z.div_pos m1 (Z.pos m') H1 ltac:(lia)) as Hq.
  unfold Z.div in Hq. destruct (Z.div_eucl m1 (Z.pos m')) as [q r]. simpl in Hq.
  by apply binary_round_aux_nonneg.
Qed.

(** *** Integers below [2 ^ 53] are exact *)

Lemma shl_S q n : shl q (S n) = xO (shl q n).
Proof. reflexivity. Qed.

Lemma shl_add q n k : shl (shl q n) k = shl q (n + k).
Proof. unfold shl. rewrite Nat.add_comm. symmetry. apply Nat.iter_add. Qed.

Lemma shl_digits q n :
  Z.pos (digits2_pos (shl q n)) = Z.pos (digits2_pos q) + Z.of_nat n.
Proof.
  induction n as [|n IH]; [simpl; lia|].
  rewrite shl_S. simpl. rewrite Pos2Z.inj_succ, IH. lia.
Qed.

Lemma shl_value q n : Z.pos (shl q n) = Z.pos q * 2 ^ Z.of_nat n.
Proof.
  induction n as [|n IH]; [simpl; lia|].
  rewrite shl_S, Pos2Z.inj_xO, IH, Nat2Z.inj_succ, Z.pow_succ_r by lia. lia.
Qed.

Lemma pos_iter_shl q p : Pos.iter xO q p = shl q (Pos.to_nat p).
Proof. unfold shl. apply Pos2Nat.inj_iter. Qed.

Lemma iter_pos_nat {A} (f : A -> A) p x :
  SpecFloat.iter_pos f p x = Nat.iter (Pos.to_nat p) f x.
Proof.
  revert x. induction p as [p IH|p IH|]; intros x.
  - change (SpecFloat.iter_pos f p~1 x)
      with (SpecFloat.iter_pos f p (SpecFloat.iter_pos f p (f x))).
    rewrite !IH, Pos2Nat.inj_xI, <- Nat.iter_succ_r, <- Nat.iter_add.
    f_equal. lia.
  - change (SpecFloat.iter_pos f p~0 x)
      with (SpecFloat.iter_pos f p (SpecFloat.iter_pos f p x)).
    rewrite !IH, Pos2Nat.inj_xO, <- Nat.iter_add. f_equal. lia.
  - done.
Qed.

Lemma shr_exact q n k :
  (k <= n)%nat ->
  Nat.iter k shr_1 {| shr_m := Z.pos (shl q n); shr_r := false; shr_s := false |}
  = {| shr_m := Z.pos (shl q (n - k)); shr_r := false; shr_s := false |}.
Proof.
  induction k as [|k IH]; intros Hk.
  - by rewrite Nat.sub_0_r.
  - simpl. rewrite IH by lia.
    replace (n - k)%nat with (S (n - S k)) by lia. by rewrite shl_S.
Qed.

Lemma digits2_pos_bounds q :
  2 ^ (Z.pos (digits2_pos q) - 1) <= Z.pos q < 2 ^ Z.pos (digits2_pos q).
Proof.
  induction q as [q IH|q IH|]; simpl digits2_pos.
  - rewrite Pos2Z.inj_succ, (Pos2Z.inj_xI q).
    replace (Z.succ (Z.pos (digits2_pos q)) - 1)
      with (Z.succ (Z.pos (digits2_pos q) - 1)) by lia.
    rewrite !Z.pow_succ_r by lia.
    revert IH. generalize (2 ^ (Z.pos (digits2_pos q) - 1)).
    generalize (2 ^ Z.pos (digits2_pos q)). lia.
  - rewrite Pos2Z.inj_succ, (Pos2Z.inj_xO q).
    replace (Z.succ (Z.pos (digits2_pos q)) - 1)
      with (Z.succ (Z.pos (digits2_pos q) - 1)) by lia.
    rewrite !Z.pow_succ_r by lia.
    revert IH. generalize (2 ^ (Z.pos (digits2_pos q) - 1)).
    generalize (2 ^ Z.pos (digits2_pos q)). lia.
  - simpl. lia.
Qed.

Lemma digits2_pos_small q : Z.pos q < 2 ^ 53 -> Z.pos (digits2_pos q) <= 53.
Proof.
  intros Hq. destruct (Z.le_gt_cases (Z.pos (digits2_pos q)) 53) as [|Hd]; [done|].
  pose proof (digits2_pos_bounds q) as [Hlo _].
  assert (2 ^ 53 <= 2 ^ (Z.pos (digits2_pos q) - 1)).
  { apply Z.pow_le_mono_r; lia. }
  lia.
Qed.

Lemma fexp_small d : 1 <= d -> fexp prec emax d = d - 53.
Proof. unfold fexp, SpecFloat.emin, prec, emax. lia. Qed.

Lemma shr_fexp_canonical m e :
  Z.pos (digits2_pos m) = 53 -> -1074 <= e ->
  shr_fexp prec emax (Z.pos m) e loc_Exact
  = ({| shr_m := Z.pos m; shr_r := false; shr_s := false |}, e).
Proof.
  intros Hd He. unfold shr_fexp. simpl Zdigits2. rewrite Hd.
  replace (fexp prec emax (53 + e) - e) with 0; [done|].
  unfold fexp, SpecFloat.emin, prec, emax. lia.
Qed.

Lemma shr_fexp_shifted q n :
  let d := Z.pos (digits2_pos q) in
  d <= 53 -> 0 <= d - 53 + Z.of_nat n ->
  shr_fexp prec emax (Z.pos (shl q n)) (- Z.of_nat n) loc_Exact
  = ({| shr_m := Z.pos (shl q (Z.to_nat (53 - d)));
        shr_r := false; shr_s := false |}, d - 53).
Proof.
  intros d Hd Hj. unfold shr_fexp. simpl Zdigits2. rewrite shl_digits.
  fold d. replace (d + Z.of_nat n + - Z.of_nat n) with d by lia.
  rewrite fexp_small by (unfold d; lia).
  destruct (d - 53 - - Z.of_nat n) as [|p|p] eqn:E; [| |lia].
  - simpl. replace (Z.to_nat (53 - d)) with n by lia.
    by replace (- Z.of_nat n) with (d - 53) by lia.
  - unfold shr. simpl shr_record_of_loc. rewrite iter_pos_nat, shr_exact by lia.
    replace (n - Pos.to_nat p)%nat with (Z.to_nat (53 - d)) by lia.
    by replace (- Z.of_nat n + Z.pos p) with (d - 53) by lia.
Qed.

Lemma binary_round_shifted q n :
  Z.pos (digits2_pos q) <= 53 ->
  binary_round prec emax false (shl q n) (- Z.of_nat n) = normal q.
Proof.
  intros Hd. unfold binary_round, normal. rewrite shl_digits.
  set (d := Z.pos (digits2_pos q)) in *.
  replace (d + Z.of_nat n + - Z.of_nat n) with d by lia.
  rewrite fexp_small by (unfold d; lia).
  assert (Hcanon : Z.pos (digits2_pos (shl q (Z.to_nat (53 - d)))) = 53).
  { rewrite shl_digits. fold d. lia. }
  unfold shl_align.
  destruct (d - 53 - - Z.of_nat n) as [|p|p] eqn:E.
  - unfold binary_round_aux.
    rewrite (shr_fexp_shifted q n) by (fold d; lia). fold d. simpl.
    rewrite shr_fexp_canonical by (done || lia). simpl.
    destruct (d - 53 <=? emax - prec) eqn:L; [done|].
    apply Z.leb_gt in L. unfold emax, prec in L. lia.
  - unfold binary_round_aux.
    rewrite (shr_fexp_shifted q n) by (fold d; lia). fold d. simpl.
    rewrite shr_fexp_canonical by (done || lia). simpl.
    destruct (d - 53 <=? emax - prec) eqn:L; [done|].
    apply Z.leb_gt in L. unfold emax, prec in L. lia.
  - rewrite pos_iter_shl, shl_add.
    replace (n + Pos.to_nat p)%nat with (Z.to_nat (53 - d)) by lia.
    unfold binary_round_aux.
    rewrite shr_fexp_canonical by (done || lia). simpl.
    rewrite shr_fexp_canonical by (done || lia). simpl.
    destruct (d - 53 <=? emax - prec) eqn:L; [done|].
    apply Z.leb_gt in L. unfold emax, prec in L. lia.
Qed.

Lemma num_of_Z_pos q : Z.pos q < 2 ^ 53 -> num_of_Z (Z.pos q) = normal q.
Proof.
  intros Hq%digits2_pos_small. unfold num_of_Z. simpl.
  apply (binary_round_shifted q 0 Hq).
Qed.

Lemma num_of_Z_shifted D k :
  0 <= D < 2 ^ 53 -> 0 <= k ->
  binary_normalize prec emax (D * 2 ^ k) (- k) false = num_of_Z D.
Proof.
  intros [H0 H1] Hk. destruct D as [|q|q]; [done| |lia].
  rewrite num_of_Z_pos by done.
  replace (Z.pos q * 2 ^ k) with (Z.pos (shl q (Z.to_nat k))).
  2:{ rewrite shl_value. f_equal. f_equal. lia. }
  simpl. replace (- k) with (- Z.of_nat (Z.to_nat k)) by lia.
  by apply binary_round_shifted, digits2_pos_small.
Qed.

Lemma shl_align_value m e e' :
  e' <= e -> Z.pos (fst (shl_align m e e')) = Z.pos m * 2 ^ (e - e').
Proof.
  intros He. unfold shl_align. destruct (e' - e) as [|p|p] eqn:E; [|lia|].
  - simpl. replace (e - e') with 0 by lia. lia.
  - simpl. rewrite pos_iter_shl, shl_value. do 2 f_equal. lia.
Qed.

Lemma normal_value q :
  Z.pos (digits2_pos q) <= 53 ->
  forall ez, ez <= Z.pos (digits2_pos q) - 53 ->
  Z.pos (fst (shl_align (shl q (Z.to_nat (53 - Z.pos (digits2_pos q))))
                        (Z.pos (digits2_pos q) - 53) ez))
  = Z.pos q * 2 ^ (- ez).
Proof.
  intros Hd ez Hez. rewrite shl_align_value, shl_value by done.
  rewrite <- Z.mul_assoc, <- Z.pow_add_r by lia. do 2 f_equal. lia.
Qed.

Lemma num_sub_exact R0 R1 :
  0 <= R0 <= R1 -> R1 < 2 ^ 53 ->
  num_sub (num_of_Z R1) (num_of_Z R0) = num_of_Z (R1 - R0).
Proof.
  intros [H0 H01] H1.
  destruct R0 as [|q0|q0]; [|destruct R1 as [|q1|q1]; try lia|lia].
  - rewrite Z.sub_0_r. destruct R1 as [|q1|q1]; [done| |lia].
    by rewrite num_of_Z_pos.
  - assert (Hq0 : Z.pos q0 < 2 ^ 53) by lia.
    rewrite !num_of_Z_pos by done. unfold normal, num_sub, SFsub. simpl cond_Zopp.
    pose proof (digits2_pos_small q0 Hq0) as Hd0.
    pose proof (digits2_pos_small q1 H1) as Hd1.
    set (ez := Z.min _ _).
    rewrite !normal_value by (done || unfold ez; lia).
    rewrite <- Z.mul_sub_distr_r.
    replace ez with (- - ez) at 2 by lia.
    apply num_of_Z_shifted; [lia|unfold ez; lia].
Qed.

(** *** Numbers that neither underflow nor overflow *)

Lemma shr_1_half r : 0 <= shr_m r -> shr_m (shr_1 r) = shr_m r / 2.
Proof.
  destruct r as [m r s]. simpl. intros Hm.
  destruct m as [|[p|p|]|p]; simpl; try done; try lia.
  - apply (Z.div_unique _ _ _ 1); lia.
  - apply (Z.div_unique _ _ _ 0); lia.
Qed.

Lemma shr_iter_div k r :
  0 <= shr_m r -> shr_m (Nat.iter k shr_1 r) = shr_m r / 2 ^ Z.of_nat k.
Proof.
  intros Hm. induction k as [|k IH].
  - simpl. by rewrite Z.div_1_r.
  - rewrite Nat2Z.inj_succ, Z.pow_succ_r by lia. simpl Nat.iter.
    rewrite shr_1_half, IH.
    + rewrite Z.div_div by lia. f_equal. lia.
    + rewrite IH. apply Z.div_pos; lia.
Qed.

Lemma Zdigits2_unique z k :
  2 ^ (k - 1) <= z < 2 ^ k -> 1 <= k -> Zdigits2 z = k.
Proof.
  intros [Hlo Hhi] Hk.
  assert (0 < z). { pose proof (Z.pow_pos_nonneg 2 (k - 1)). lia. }
  destruct z as [|p|p]; try lia. simpl.
  pose proof (digits2_pos_bounds p) as [Hdlo Hdhi].
  set (d := Z.pos (digits2_pos p)) in *.
  destruct (Z.lt_trichotomy d k) as [Hlt|[->|Hgt]]; [|done|].
  - assert (2 ^ d <= 2 ^ (k - 1)) by (apply Z.pow_le_mono_r; lia). lia.
  - assert (2 ^ k <= 2 ^ (d - 1)) by (apply Z.pow_le_mono_r; lia). lia.
Qed.

Lemma Zdigits2_bounds z :
  0 < z -> 2 ^ (Zdigits2 z - 1) <= z < 2 ^ Zdigits2 z.
Proof. destruct z as [|p|p]; try lia. intros _. apply digits2_pos_bounds. Qed.

Lemma shr_record_of_loc_m m l : shr_m (shr_record_of_loc m l) = m.
Proof. by destruct l as [|[]]. Qed.

Lemma round_nearest_even_range m l :
  m <= round_nearest_even m l <= m + 1.
Proof. destruct l as [|[]]; simpl; try lia. destruct (Z.even m); lia. Qed.

(** The first shift of a mantissa of 53 digits or more leaves its 53
    leading digits. *)
Lemma shr_fexp_leading mx ex l :
  0 < mx -> 53 <= Zdigits2 mx -> -1074 <= Zdigits2 mx + ex - 53 ->
  shr_m (fst (shr_fexp prec emax mx ex l)) = mx / 2 ^ (Zdigits2 mx - 53) /\
  snd (shr_fexp prec emax mx ex l) = Zdigits2 mx + ex - 53.
Proof.
  intros Hmx Hd Hlo. unfold shr_fexp.
  set (d := Zdigits2 mx) in *.
  replace (fexp prec emax (d + ex) - ex) with (d - 53)
    by (unfold fexp, SpecFloat.emin, prec, emax; lia).
  unfold shr. destruct (d - 53) as [|p|p] eqn:E; [| |lia].
  - simpl. rewrite shr_record_of_loc_m, Z.div_1_r. split; [done|lia].
  - simpl. rewrite iter_pos_nat, shr_iter_div, shr_record_of_loc_m,
      positive_nat_Z; [split; [done|lia]|].
    rewrite shr_record_of_loc_m. lia.
Qed.

Lemma leading_digits mx :
  0 < mx -> 53 <= Zdigits2 mx ->
  2 ^ 52 <= mx / 2 ^ (Zdigits2 mx - 53) < 2 ^ 53.
Proof.
  intros Hmx Hd. pose proof (Zdigits2_bounds mx Hmx) as [Hlo Hhi].
  set (d := Zdigits2 mx) in *.
  assert (Hn : 0 < 2 ^ (d - 53)) by (apply Z.pow_pos_nonneg; lia).
  split.
  - replace (2 ^ 52) with (2 ^ (d - 1) / 2 ^ (d - 53)).
    + apply Z.div_le_mono; lia.
    + rewrite <- Z.pow_sub_r by lia. f_equal. lia.
  - apply Z.div_lt_upper_bound; [done|].
    rewrite <- Z.pow_add_r by lia. by replace (d - 53 + 53) with d by lia.
Qed.

Lemma round_normal s mx ex l :
  0 < mx -> 53 <= Zdigits2 mx ->
  -1074 <= Zdigits2 mx + ex - 53 -> Zdigits2 mx + ex - 52 <= 971 ->
  exists m' e',
    binary_round_aux prec emax s mx ex l = S754_finite s m' e' /\
    Z.pos (digits2_pos m') = 53 /\
    Zdigits2 mx + ex - 53 <= e' <= Zdigits2 mx + ex - 52.
Proof.
  intros Hmx Hd Hlo Hhi. unfold binary_round_aux.
  destruct (shr_fexp_leading mx ex l Hmx Hd Hlo) as [Hm0 He1].
  pose proof (leading_digits mx Hmx Hd) as Hrange.
  destruct (shr_fexp prec emax mx ex l) as [r1 e1]. simpl in Hm0, He1.
  pose proof (round_nearest_even_range (shr_m r1) (loc_of_shr_record r1)) as Hr.
  set (m1 := round_nearest_even (shr_m r1) (loc_of_shr_record r1)) in *.
  rewrite Hm0 in Hr.
  destruct (Z.eq_dec m1 (2 ^ 53)) as [E|Hne].
  - rewrite E. unfold shr_fexp.
    replace (fexp prec emax (Zdigits2 (2 ^ 53) + e1) - e1) with 1.
    2:{ change (Zdigits2 (2 ^ 53)) with 54.
        unfold fexp, SpecFloat.emin, prec, emax. lia. }
    simpl. exists (2 ^ 52)%positive, (e1 + 1). split; [|split; [done|lia]].
    destruct (e1 + 1 <=? emax - prec) eqn:L; [done|].
    apply Z.leb_gt in L. unfold emax, prec in L. lia.
  - assert (Hm1 : 2 ^ 52 <= m1 < 2 ^ 53) by lia.
    destruct m1 as [|q|q] eqn:Eq; [lia| |lia].
    assert (Hq : Z.pos (digits2_pos q) = 53).
    { apply (Zdigits2_unique (Z.pos q) 53); [done|lia]. }
    rewrite shr_fexp_canonical by (done || lia). simpl.
    exists q, e1. split; [|split; [done|lia]].
    destruct (e1 <=? emax - prec) eqn:L; [done|].
    apply Z.leb_gt in L. unfold emax, prec in L. lia.
Qed.

Lemma full_mantissa m :
  Z.pos (digits2_pos m) = 53 -> 2 ^ 52 <= Z.pos m < 2 ^ 53.
Proof. intros Hd. pose proof (digits2_pos_bounds m). by rewrite Hd in *. Qed.

Lemma num_mul_normal a b c d x y :
  normal_between a b x -> normal_between c d y ->
  -1074 <= a + c + 52 -> b + d + 54 <= 971 ->
  normal_between (a + c + 52) (b + d + 54) (num_mul x y).
Proof.
  intros (mx & ex & -> & Hdx & Hex) (my & ey & -> & Hdy & Hey) Hlo Hhi.
  unfold num_mul, SFmul. simpl xorb.
  pose proof (full_mantissa mx Hdx) as Hmx.
  pose proof (full_mantissa my Hdy) as Hmy.
  assert (Hprod : 2 ^ 104 <= Z.pos (mx * my) < 2 ^ 106).
  { rewrite Pos2Z.inj_mul.
    change (2 ^ 104) with (2 ^ 52 * 2 ^ 52).
    change (2 ^ 106) with (2 ^ 53 * 2 ^ 53). nia. }
  assert (Hd : Zdigits2 (Z.pos (mx * my)) = 105 \/ Zdigits2 (Z.pos (mx * my)) = 106).
  { destruct (Z.lt_ge_cases (Z.pos (mx * my)) (2 ^ 105)).
    - left. apply Zdigits2_unique; lia.
    - right. apply Zdigits2_unique; lia. }
  destruct (round_normal false (Z.pos (mx * my)) (ex + ey) loc_Exact)
    as (m' & e' & -> & Hm' & He'); [done|lia|lia|lia|].
  exists m', e'. split; [done|]. split; [done|lia].
Qed.

Lemma shl_align_fst m e e' :
  e' <= e -> fst (shl_align m e e') = shl m (Z.to_nat (e - e')).
Proof.
  intros He. unfold shl_align. destruct (e' - e) as [|p|p] eqn:E; [|lia|].
  - simpl. by replace (e - e') with 0 by lia.
  - simpl. rewrite pos_iter_shl. f_equal. lia.
Qed.

Lemma num_add_normal a b x y :
  normal_between a b x -> normal_between a b y ->
  -1074 <= a -> b + 2 <= 971 ->
  normal_between a (b + 2) (num_add x y).
Proof.
  intros (mx & ex & -> & Hdx & Hex) (my & ey & -> & Hdy & Hey) Hlo Hhi.
  unfold num_add, SFadd. simpl cond_Zopp.
  set (ez := Z.min ex ey).
  rewrite !shl_align_fst by (unfold ez; lia).
  pose proof (full_mantissa mx Hdx) as Hmx.
  pose proof (full_mantissa my Hdy) as Hmy.
  set (kx := Z.to_nat (ex - ez)). set (ky := Z.to_nat (ey - ez)).
  set (M := (shl mx kx + shl my ky)%positive).
  change (Z.pos (shl mx kx) + Z.pos (shl my ky)) with (Z.pos M).
  assert (HM : Z.pos M = Z.pos mx * 2 ^ (ex - ez) + Z.pos my * 2 ^ (ey - ez)).
  { unfold M. rewrite Pos2Z.inj_add, !shl_value. unfold kx, ky.
    rewrite !Z2Nat.id by (unfold ez; lia). done. }
  set (top := Z.max ex ey).
  assert (Hbounds : 2 ^ (52 + (top - ez)) <= Z.pos M < 2 ^ (54 + (top - ez))).
  { rewrite HM.
    assert (0 < 2 ^ (ex - ez)) by (apply Z.pow_pos_nonneg; unfold ez; lia).
    assert (0 < 2 ^ (ey - ez)) by (apply Z.pow_pos_nonneg; unfold ez; lia).
    assert (2 ^ (ex - ez) <= 2 ^ (top - ez))
      by (apply Z.pow_le_mono_r; unfold top, ez; lia).
    assert (2 ^ (ey - ez) <= 2 ^ (top - ez))
      by (apply Z.pow_le_mono_r; unfold top, ez; lia).
    rewrite !Z.pow_add_r by (unfold top, ez; lia).
    change (2 ^ 54) with (2 * 2 ^ 53).
    assert (2 ^ (ex - ez) = 2 ^ (top - ez) \/ 2 ^ (ey - ez) = 2 ^ (top - ez)).
    { unfold top. destruct (Z.max_spec ex ey) as [[_ ->]|[_ ->]]; auto. }
    nia. }
  assert (Hd : Zdigits2 (Z.pos M) = 53 + (top - ez)
               \/ Zdigits2 (Z.pos M) = 54 + (top - ez)).
  { destruct (Z.lt_ge_cases (Z.pos M) (2 ^ (53 + (top - ez)))).
    - left. apply Zdigits2_unique; [|unfold top, ez; lia].
      replace (53 + (top - ez) - 1) with (52 + (top - ez)) by lia.
      split; [apply Hbounds|done].
    - right. apply Zdigits2_unique; [|unfold top, ez; lia].
      replace (54 + (top - ez) - 1) with (53 + (top - ez)) by lia.
      split; [done|apply Hbounds]. }
  assert (Htop : 0 <= top - ez) by (unfold top, ez; lia).
  simpl binary_normalize. unfold binary_round.
  change (Z.pos (digits2_pos M)) with (Zdigits2 (Z.pos M)).
  assert (Hfexp : fexp prec emax (Zdigits2 (Z.pos M) + ez)
                  = Zdigits2 (Z.pos M) + ez - 53).
  { unfold fexp, SpecFloat.emin, prec, emax. unfold top, ez in *. lia. }
  rewrite Hfexp. unfold shl_align.
  destruct (Zdigits2 (Z.pos M) + ez - 53 - ez) as [|p|p] eqn:E; [| |lia].
  - destruct (round_normal false (Z.pos M) ez loc_Exact)
      as (m' & e' & -> & Hm' & He'); [done|lia|unfold top, ez in *; lia
                                      |unfold top, ez in *; lia|].
    exists m', e'. split; [done|]. split; [done|unfold top, ez in *; lia].
  - destruct (round_normal false (Z.pos M) ez loc_Exact)
      as (m' & e' & -> & Hm' & He'); [done|lia|unfold top, ez in *; lia
                                      |unfold top, ez in *; lia|].
    exists m', e'. split; [done|]. split; [done|unfold top, ez in *; lia].
Qed.

Lemma normal_between_weaken lo hi lo' hi' x :
  normal_between lo hi x -> lo' <= lo -> hi <= hi' -> normal_between lo' hi' x.
Proof.
  intros (m & e & -> & Hd & He) Hlo Hhi. exists m, e. repeat split; (done || lia).
Qed.

Lemma normal_between_positive lo hi x :
  normal_between lo hi x -> positive_finite x = true.
Proof. by intros (m & e & -> & _). Qed.

Lemma num_of_Z_normal z k :
  0 < z < 2 ^ k -> 0 <= k <= 53 -> normal_between (-52) (k - 53) (num_of_Z z).
Proof.
  intros [H0 Hk] Hk53. destruct z as [|q|q]; [lia| |lia].
  assert (Hq : Z.pos q < 2 ^ 53).
  { assert (2 ^ k <= 2 ^ 53) by (apply Z.pow_le_mono_r; lia). lia. }
  rewrite num_of_Z_pos by done. unfold normal.
  pose proof (digits2_pos_small q Hq) as Hd.
  pose proof (digits2_pos_bounds q) as [Hlo _].
  set (d := Z.pos (digits2_pos q)) in *.
  assert (d <= k).
  { destruct (Z.le_gt_cases d k) as [|Hgt]; [done|].
    assert (2 ^ k <= 2 ^ (d - 1)) by (apply Z.pow_le_mono_r; lia). lia. }
  eexists _, _. split; [done|]. split; [|unfold d in *; lia].
  rewrite shl_digits. fold d. lia.
Qed.

Lemma nanosecond_normal :
  normal_between (-82) (-82) (round_decimal false 1 (-9)).
Proof. eexists _, _. split; [vm_compute; reflexivity|]. split; [done|lia]. Qed.

Lemma diffSeconds_normal sec nsec :
  0 <= sec < 2 ^ 53 -> 0 <= nsec < 10 ^ 9 -> 0 < sec + nsec ->
  normal_between (-82) 2 (diffSeconds (sec, nsec)).
Proof.
  intros Hsec Hnsec Hpos. unfold diffSeconds. simpl fst. simpl snd.
  destruct (Z.eq_dec nsec 0) as [->|Hn].
  - assert (Hs : normal_between (-52) 0 (num_of_Z sec))
      by (apply (num_of_Z_normal sec 53); lia).
    destruct Hs as (m & e & -> & Hd & He). exists m, e.
    repeat split; (done || lia).
  - assert (Hy : normal_between (-82) (-51)
                   (num_mul (num_of_Z nsec) (round_decimal false 1 (-9)))).
    { apply (num_mul_normal (-52) (-23) (-82) (-82)); [|apply nanosecond_normal|lia|lia].
      apply (num_of_Z_normal nsec 30); [|lia].
      assert (10 ^ 9 < 2 ^ 30) by done. lia. }
    destruct (Z.eq_dec sec 0) as [->|Hs].
    + destruct Hy as (m & e & -> & Hd & He). exists m, e.
      repeat split; (done || lia).
    + apply (num_add_normal (-82) 0); [| |lia|lia].
      * apply (normal_between_weaken (-52) 0); [|lia|lia].
        apply (num_of_Z_normal sec 53); lia.
      * apply (normal_between_weaken (-82) (-51)); [done|lia|lia].
Qed.

(** Between two reads [process.hrtime] reports whole seconds and less than
    a second in nanoseconds, not both zero: the square of the elapsed time is
    a positive finite number. *)
Lemma elapsed_squared_positive sec nsec :
  0 <= sec < 2 ^ 53 -> 0 <= nsec < 10 ^ 9 -> 0 < sec + nsec ->
  positive_finite (num_mul (diffSeconds (sec, nsec)) (diffSeconds (sec, nsec)))
  = true.
Proof.
  intros Hsec Hnsec Hpos.
  pose proof (diffSeconds_normal sec nsec Hsec Hnsec Hpos) as Ht.
  apply (normal_between_positive (-112) 58).
  by apply (num_mul_normal (-82) 2 (-82) 2).
Qed.

(** *** Decimal numerals *)

Lemma is_digit_facts c :
  is_digit c = true ->
  is_ws c = false /\
  (c =? "x")%char || (c =? "X")%char = false /\
  (c =? "o")%char || (c =? "O")%char = false /\
  (c =? "b")%char || (c =? "B")%char = false /\
  (c =? "-")%char = false /\ (c =? "+")%char = false /\
  (c =? "I")%char = false /\ (c =? ".")%char = false.
Proof.
  destruct c as [[] [] [] [] [] [] [] []]; vm_compute; intros H;
    first [discriminate H | repeat split].
Qed.

Lemma digits_value_digits base acc s R :
  digits_value base acc s = Some R ->
  string_forall (fun c => match digit_of base c with Some _ => true | None => false end) s = true.
Proof.
  revert acc. induction s as [|c s IH]; intros acc; [done|]. simpl.
  destruct (digit_of base c); [|done]. simpl. apply IH.
Qed.

Lemma digits_value_nonneg s : forall acc R,
  0 <= acc -> digits_value 10 acc s = Some R -> 0 <= R.
Proof.
  induction s as [|c s IH]; intros acc R Hacc; simpl.
  - intros [= <-]. done.
  - destruct (digit_of 10 c) as [d|] eqn:Hd; [|done].
    apply IH. unfold digit_of in Hd.
    repeat case_match; simplify_eq; lia.
Qed.

Lemma span_digits_all s :
  string_forall is_digit s = true -> span_digits s = (s, EmptyString).
Proof.
  induction s as [|c s IH]; [done|]. simpl. unfold is_digit at 1.
  destruct (digit_of 10 c); [|done]. simpl. intros Hs. by rewrite (IH Hs).
Qed.

Lemma StringToNumber_decimal s R :
  is_empty s = false -> digits_value 10 0 s = Some R ->
  StringToNumber s = num_of_Z R.
Proof.
  intros Hne Hval.
  pose proof (digits_value_digits _ _ _ _ Hval) as Hdig. fold is_digit in Hdig.
  assert (Htok : token s = true).
  { unfold token. rewrite Hne. simpl. revert Hdig. apply string_forall_impl.
    intros c Hc. apply is_digit_facts in Hc as [-> _]. done. }
  destruct s as [|c s]; [done|]. simpl in Hdig.
  apply andb_true_iff in Hdig as [Hc Hs].
  pose proof (is_digit_facts c Hc) as (Hws & _ & _ & _ & Hminus & Hplus & HI & _).
  unfold StringToNumber.
  assert (Htrim : trim (String c s) = String c s).
  { unfold trim. simpl. rewrite Hws. by apply token_trim_end_id. }
  rewrite Htrim. simpl is_empty. cbv iota.
  assert (Hradix : parse_radix (String c s) = None).
  { unfold parse_radix. destruct s as [|p ds]; [by repeat case_match|].
    simpl in Hs. apply andb_true_iff in Hs as [Hp _].
    apply is_digit_facts in Hp as (_ & -> & -> & -> & _).
    by repeat case_match. }
  rewrite Hradix.
  assert (Hsign : parse_sign (String c s) = (false, String c s)).
  { unfold parse_sign. apply Ascii.eqb_neq in Hminus, Hplus.
    repeat case_match; simplify_eq; done. }
  rewrite Hsign.
  assert (Hinf : String.eqb (String c s) "Infinity" = false).
  { simpl. by rewrite HI. }
  rewrite Hinf.
  assert (Hdec : parse_decimal (String c s) = Some (R, 0)).
  { unfold parse_decimal. rewrite span_digits_all by (simpl; by rewrite Hc, Hs).
    simpl. simpl in Hval. by rewrite app_nil_r, Hval. }
  rewrite Hdec.
  pose proof (digits_value_nonneg _ _ _ (Z.le_refl 0) Hval) as HR.
  destruct R as [|p|p]; [done| |lia].
  unfold round_decimal, num_of_Z. simpl. by rewrite Pos.mul_1_r.
Qed.

Lemma decimal_number s R : decimal s = Some R -> StringToNumber s = num_of_Z R.
Proof.
  unfold decimal. destruct (is_empty s) eqn:E; [done|].
  by apply StringToNumber_decimal.
Qed.

Lemma decimal_nonneg s R : decimal s = Some R -> 0 <= R.
Proof.
  unfold decimal. destruct (is_empty s); [done|].
  by apply digits_value_nonneg.
Qed.

Lemma num_of_Z_small D :
  0 <= D < 2 ^ 53 ->
  non_negative (num_of_Z D) = true /\ num_of_Z D <> S754_infinity false.
Proof.
  intros [H0 H1]. destruct D as [|q|q]; [done| |lia].
  by rewrite num_of_Z_pos.
Qed.

(** ** The rate *)

(** C7 as stated fails for counters from [2 ^ 53] on, which are rounded
    before they are subtracted.  With 512-byte sectors and one second
    between the reads, a step from 9007199254740992 to 9007199254740993
    gives the rate 0 where a step from 0 to 1 gives 512; [usageRead] then
    resolves with [undefined]. *)
Lemma rate_of_huge_counters :
  decimal "9007199254740992" = Some (2 ^ 53) /\
  decimal "9007199254740993" = Some (2 ^ 53 + 1) /\
  totalBytesPerSecond (VString "9007199254740992")
    (VString "9007199254740993") (VNumber (num_of_Z 512)) (diffSeconds (1, 0))
  = S754_zero false /\
  totalBytesPerSecond (VString "0") (VString "1")
    (VNumber (num_of_Z 512)) (diffSeconds (1, 0))
  = num_of_Z 512 /\
  outcome (usageRead ∅ huge_world) = Resolves VUndefined.
Proof. repeat split; vm_compute; reflexivity. Qed.

(** ** The file that cannot be read *)

(** X1.  When [/proc/diskstats] cannot be read at the first snapshot, [raw],
    [usageRead] and [usageWrite] throw the error of the read at their caller,
    and nothing is waited for. *)
Theorem unreadable_file_throws opts w :
  first_read w = None ->
  raw (first_read w) = Throw SystemError /\
  outcome (usageRead opts w) = Throws SystemError /\
  effects (usageRead opts w) = [] /\
  outcome (usageWrite opts w) = Throws SystemError /\
  effects (usageWrite opts w) = [].
Proof.
  intros Hread. unfold raw, usageRead, usageWrite, usage, read_counter.
  by rewrite Hread.
Qed.

Lemma unreadable_file_throws_witness :
  raw None = Throw SystemError /\
  outcome (usageRead ∅ {| first_read := None; second_read := None;
                          hrtime_diff := (1, 0) |}) = Throws SystemError /\
  effects (usageRead ∅ {| first_read := None; second_read := None;
                          hrtime_diff := (1, 0) |}) = [] /\
  outcome (usageWrite ∅ {| first_read := None; second_read := None;
                           hrtime_diff := (1, 0) |}) = Throws SystemError /\
  effects (usageWrite ∅ {| first_read := None; second_read := None;
                           hrtime_diff := (1, 0) |}) = [].
Proof.
  apply (unreadable_file_throws ∅ {| first_read := None; second_read := None;
                                     hrtime_diff := (1, 0) |}).
  reflexivity.
Defined.

(** ** What the parser reads of a line *)

Lemma stats_of_take values : stats_of (take 14 values) = stats_of values.
Proof. unfold stats_of. by rewrite !lookup_take_lt by lia. Qed.

Lemma key_of_take values : key_of (take 14 values) = key_of values.
Proof. unfold key_of. by rewrite lookup_take_lt by lia. Qed.

Lemma foldl_store_take data vs :
  foldl store data (map (take 14) vs) = foldl store data vs.
Proof.
  revert data. induction vs as [|v vs IH]; intros data; [done|].
  simpl. rewrite IH. unfold store. by rewrite stats_of_take, key_of_take.
Qed.

(** X3.  The parser reads the first fourteen columns of a line and nothing
    else: two files of well-formed lines that agree line by line on these
    columns give the same object, whatever white space sets the columns
    apart and whatever columns follow the fourteenth. *)
Theorem parse_reads_fourteen_columns rows rows' :
  rows <> [] -> forallb wf_row rows = true -> forallb wf_row rows' = true ->
  map columns rows = map columns rows' ->
  raw (Some (file_text rows)) = raw (Some (file_text rows')).
Proof.
  intros Hne Hwf Hwf' Hcols.
  assert (Hne' : rows' <> []).
  { intros ->. by destruct rows. }
  unfold raw, _parseProcDiskstats. f_equal.
  rewrite !parse_file_text by done.
  rewrite <- (foldl_store_take _ (map fields rows)).
  rewrite <- (foldl_store_take _ (map fields rows')).
  rewrite !map_map. unfold columns in Hcols. by rewrite Hcols.
Qed.

(** A line of eighteen columns set with spaces, and its first fourteen set
    with tabs before a carriage return. *)
Lemma parse_reads_fourteen_columns_witness :
  raw (Some (file_text [wide_row; sda1_row]))
  = raw (Some (file_text [tabbed_row; sda1_row])).
Proof.
  apply parse_reads_fourteen_columns.
  - done.
  - reflexivity.
  - reflexivity.
  - reflexivity.
Defined.

(** ** A name on several lines *)

Lemma own_store_frame data vs k :
  k ∉ map key_of vs -> own (foldl store data vs) !! k = own data !! k.
Proof.
  revert data. induction vs as [|v vs IH]; intros data Hk; [done|].
  simpl in *. apply not_elem_of_cons in Hk as [Hne Hk].
  rewrite (IH _ Hk). unfold store, set_property.
  destruct (String.eqb _ _); [done|]. simpl. by rewrite lookup_insert_ne.
Qed.

Lemma own_store_last data before v after :
  key_of v <> "__proto__" -> key_of v ∉ map key_of after ->
  own (foldl store data (before ++ v :: after)) !! key_of v
  = Some (stats_of v).
Proof.
  intros Hproto Hafter. rewrite foldl_app. simpl.
  rewrite own_store_frame by done. unfold store, set_property.
  apply String.eqb_neq in Hproto. rewrite Hproto. simpl.
  by rewrite lookup_insert_eq.
Qed.

(** X4.  When a name stands on several lines, the last of them is the one
    kept: in a file of well-formed lines, a line whose name is not
    [__proto__] and comes on no later line has its record stored under its
    name, whatever the lines before it hold. *)
Theorem later_line_replaces_earlier before r after :
  forallb wf_row (before ++ r :: after) = true ->
  device_name r <> "__proto__" -> device_name r ∉ map device_name after ->
  exists data,
    raw (Some (file_text (before ++ r :: after))) = Ok data /\
    own data !! device_name r = Some (stats_of (fields r)).
Proof.
  intros Hwf Hproto Hafter. eexists. split; [reflexivity|].
  rewrite parse_file_text by (done || by destruct before).
  rewrite map_app. simpl. apply own_store_last; [done|].
  by rewrite map_map.
Qed.

(** [sda] on the first line and on the third: the third is kept. *)
Lemma later_line_replaces_earlier_witness :
  exists data,
    raw (Some (file_text ([sda_line "1000" "7000"; sda1_row]
                          ++ sda_line "3000" "7000" :: [sdb_row]))) = Ok data /\
    own data !! "sda" = Some (stats_of (fields (sda_line "3000" "7000"))).
Proof.
  apply (later_line_replaces_earlier [sda_line "1000" "7000"; sda1_row]
           (sda_line "3000" "7000") [sdb_row]).
  - reflexivity.
  - by_decision.
  - by_decision.
Defined.

(** ** White space around the text *)

Lemma trim_outer a s b :
  string_forall is_ws a = true -> string_forall is_ws b = true ->
  trim (a +:+ s +:+ b) = trim s.
Proof.
  intros Ha Hb. unfold trim. rewrite trim_start_ws by done.
  rewrite <- !trim_start_trim_end. by rewrite trim_end_ws.
Qed.

(** X5.  White space before the first line of the file and behind the last
    one, empty lines included, changes nothing: whatever the text, the
    parser returns for it what it returns with that white space around it.
    So a file may end in a line feed or not. *)
Theorem outer_white_space_is_ignored a text b :
  string_forall is_ws a = true -> string_forall is_ws b = true ->
  raw (Some (a +:+ text +:+ b)) = raw (Some text).
Proof.
  intros Ha Hb. unfold raw, _parseProcDiskstats, parse_diskstats.
  by rewrite trim_outer.
Qed.

(** An empty line before the text, and the line feed of the last line. *)
Lemma outer_white_space_is_ignored_witness :
  raw (Some (String newline " " +:+ render sda_row
             +:+ String newline EmptyString))
  = raw (Some (render sda_row)).
Proof.
  apply (outer_white_space_is_ignored (String newline " ") (render sda_row)
           (String newline EmptyString)).
  - reflexivity.
  - reflexivity.
Defined.

(** ** What the parser stores, whatever the text *)

Lemma trim_end_fixed c s :
  trim_end (String c s) = String c s ->
  trim_end s = s /\ (is_ws c = true -> s <> EmptyString).
Proof.
  simpl. destruct (is_ws c && is_empty (trim_end s)) eqn:E; [done|].
  intros [= Hs]. split; [done|]. intros Hc ->. by rewrite Hc in E.
Qed.

(** The pieces of a string that ends in no white space: behind a run of
    white space all of them are fields, and so are all but the first one at
    the start of the string, where the first is empty only before a run. *)
Lemma split_ws_trimmed s :
  trim_end s = s -> s <> EmptyString ->
  Forall (fun t => token t = true) (split_ws_from true s) /\
  exists p ps,
    split_ws_from false s = p :: ps /\ nonws p = true /\
    Forall (fun t => token t = true) ps /\
    (starts_nonws s = true -> is_empty p = false).
Proof.
  induction s as [|c s IH]; [done|]. intros Hfix _.
  apply trim_end_fixed in Hfix as [Hs Hc]. simpl.
  destruct (is_ws c) eqn:Ec.
  - destruct (IH Hs (Hc eq_refl)) as [Hrun _]. split; [done|].
    by exists EmptyString, (split_ws_from true s).
  - destruct s as [|c' s'].
    + assert (Hcp : token (String c EmptyString) = true).
      { unfold token. simpl. by rewrite Ec. }
      split; [by repeat constructor|].
      exists (String c EmptyString), []. split; [done|].
      split; [|by split]. unfold nonws. simpl. by rewrite Ec.
    + destruct (IH Hs) as [_ (p & ps & -> & Hp & Hps & _)]; [done|].
      assert (Hcp : token (String c p) = true).
      { unfold token. simpl. rewrite Ec. simpl. exact Hp. }
      split; [by constructor|].
      exists (String c p), ps. split; [done|]. split; [|by split].
      unfold nonws. simpl. rewrite Ec. exact Hp.
Qed.

Lemma trim_start_starts s :
  trim_start s <> EmptyString -> starts_nonws (trim_start s) = true.
Proof.
  induction s as [|c s IH]; [done|]. simpl.
  destruct (is_ws c) eqn:Ec; [done|]. simpl. by rewrite Ec.
Qed.

Lemma trim_end_starts s :
  starts_nonws s = true -> starts_nonws (trim_end s) = true.
Proof.
  destruct s as [|c s]; [done|]. simpl. intros Hc.
  apply negb_true_iff in Hc. rewrite Hc. simpl. by rewrite Hc.
Qed.

Lemma trim_starts s : trim s <> EmptyString -> starts_nonws (trim s) = true.
Proof.
  unfold trim. intros Hne. apply trim_end_starts, trim_start_starts.
  intros E. by rewrite E in Hne.
Qed.

(** What the callback reads off any line: fields, or the one empty piece of
    a line that holds white space only. *)
Lemma split_ws_trim line :
  split_ws (trim line) = [EmptyString] \/
  Forall (fun t => token t = true) (split_ws (trim line)).
Proof.
  destruct (trim line) as [|c s] eqn:E; [by left|]. right.
  destruct (split_ws_trimmed (String c s))
    as [_ (p & ps & Hsplit & Hp & Hps & Hhd)].
  - rewrite <- E. unfold trim. apply trim_end_idem.
  - done.
  - unfold split_ws. rewrite Hsplit. constructor; [|done].
    unfold token. fold (nonws p). rewrite Hp, Hhd; [done|].
    rewrite <- E. apply trim_starts. by rewrite E.
Qed.

Lemma clean_field_lookup values i :
  Forall (fun t => token t = true) values -> clean_field (values !! i) = true.
Proof.
  intros Hall. destruct (values !! i) as [t|] eqn:E; [|done].
  simpl. rewrite Forall_forall in Hall. apply Hall.
  by apply list_elem_of_lookup_2 in E.
Qed.

Lemma clean_stats_of values :
  Forall (fun t => token t = true) values ->
  token (key_of values) = true /\ clean_record (stats_of values) = true.
Proof.
  intros Hall. split.
  - unfold key_of. pose proof (clean_field_lookup values 2 Hall) as H.
    by destruct (values !! 2%nat).
  - unfold clean_record, stats_of. simpl.
    by rewrite !clean_field_lookup.
Qed.

Lemma parse_line_ok data line :
  (forall k r, own data !! k = Some r -> entry_ok k r) ->
  forall k r, own (parse_line data line) !! k = Some r -> entry_ok k r.
Proof.
  intros Hdata k r. unfold parse_line, set_property.
  destruct (String.eqb _ _); simpl; [apply Hdata|].
  destruct (decide (key_of (split_ws (trim line)) = k)) as [<-|Hne].
  - rewrite lookup_insert_eq. intros [= <-].
    destruct (split_ws_trim line) as [->|Hall].
    + split; [done|]. by right.
    + destruct (clean_stats_of _ Hall). split; [done|by left].
  - rewrite lookup_insert_ne by done. apply Hdata.
Qed.

Lemma foldl_parse_line_ok lines : forall data,
  (forall k r, own data !! k = Some r -> entry_ok k r) ->
  forall k r, own (foldl parse_line data lines) !! k = Some r -> entry_ok k r.
Proof.
  induction lines as [|l lines IH]; intros data Hdata; [done|].
  simpl. apply IH. by apply parse_line_ok.
Qed.

(** X6.  Whatever text the file holds, what [raw] returns is clean: every
    own property has a name that is non-empty and free of white space, and
    every field of its record is [undefined] or a non-empty text free of
    white space.  The one exception is the record of a line of white space
    only, stored under [undefined] with an empty [deviceNumber]. *)
Theorem parsed_fields_are_tokens text data k r :
  raw (Some text) = Ok data -> own data !! k = Some r ->
  token k = true /\
  (clean_record r = true \/ (k = "undefined" /\ r = blank_record)).
Proof.
  intros [= <-]. unfold parse_diskstats.
  apply foldl_parse_line_ok. intros k' r'. simpl. by rewrite lookup_empty.
Qed.

(** The record of a line of six fields, between two empty lines. *)
Lemma parsed_fields_are_tokens_witness :
  token "sda" = true /\
  (clean_record (stats_of ["8"; "0"; "sda"; "1"; "2"; "3"]) = true \/
   ("sda" = "undefined" /\
    stats_of ["8"; "0"; "sda"; "1"; "2"; "3"] = blank_record)).
Proof.
  apply (parsed_fields_are_tokens
           (String newline (file_text [short_row]) +:+ String newline " ")
           (parse_diskstats
              (String newline (file_text [short_row]) +:+ String newline " "))
           "sda" (stats_of ["8"; "0"; "sda"; "1"; "2"; "3"])).
  - reflexivity.
  - vm_compute. reflexivity.
Defined.

(** ** How a call fails *)

(** X7.  When the first read found the device and the file cannot be read
    any more at the second read, [usageRead] and [usageWrite] have returned
    their promise and waited once, and the error of the read goes to no
    caller: the promise is not resolved, and the error is the reason of a
    rejection that nothing handles. *)
Theorem second_read_failure_never_settles opts w r0 :
  present (first_read w) (device_of opts) r0 -> second_read w = None ->
  let waited := [Delay (get_option (apply_defaults opts) "sampleMs")] in
  (effects (usageRead opts w) = waited /\
   resolved (outcome (usageRead opts w)) = false /\
   unhandled_rejection (outcome (usageRead opts w)) = Some SystemError) /\
  (effects (usageWrite opts w) = waited /\
   resolved (outcome (usageWrite opts w)) = false /\
   unhandled_rejection (outcome (usageWrite opts w)) = Some SystemError).
Proof.
  intros H0 H1. simpl. unfold usageRead, usageWrite, usage, device_of in *.
  rewrite !(read_counter_present _ _ _ _ H0).
  unfold read_counter. by rewrite H1.
Qed.

Lemma second_read_failure_never_settles_witness :
  (effects (usageRead ∅ vanished_world)
   = [Delay (get_option (apply_defaults ∅) "sampleMs")] /\
   resolved (outcome (usageRead ∅ vanished_world)) = false /\
   unhandled_rejection (outcome (usageRead ∅ vanished_world))
   = Some SystemError) /\
  (effects (usageWrite ∅ vanished_world)
   = [Delay (get_option (apply_defaults ∅) "sampleMs")] /\
   resolved (outcome (usageWrite ∅ vanished_world)) = false /\
   unhandled_rejection (outcome (usageWrite ∅ vanished_world))
   = Some SystemError).
Proof.
  refine (second_read_failure_never_settles ∅ vanished_world
            (stats_of (fields (sda_line "1000" "7000"))) _ _).
  - by_parsing.
  - reflexivity.
Defined.






(** ** What a call resolves with *)

Lemma bytesTo_cases b units :
  (truthy (fst (_bytesTo b units)) = true /\ snd (_bytesTo b units) = []) \/
  _bytesTo b units = (VUndefined, [ConsoleLog (unknown_units_message units)]).
Proof.
  unfold _bytesTo.
  destruct (truthy (get_property _ _)) eqn:E; [by left|by right].
Qed.

Lemma usage_resolved_cases counter opts w v :
  outcome (usage counter opts w) = Resolves v ->
  let cfg := apply_defaults opts in
  (truthy v = true /\
   effects (usage counter opts w) = [Delay (get_option cfg "sampleMs")]) \/
  (v = VUndefined /\
   effects (usage counter opts w)
   = [Delay (get_option cfg "sampleMs");
      ConsoleLog (unknown_units_message (get_option cfg "units"))]).
Proof.
  simpl. unfold usage.
  destruct (read_counter _ (first_read w) _) as [d0|]; [|done].
  destruct (read_counter _ (second_read w) _) as [d1|]; [|done].
  match goal with |- context [_bytesTo ?b ?u] =>
    destruct (bytesTo_cases b u) as [[Ht Hl]|E];
    [destruct (_bytesTo b u) as [c l]; simpl in *; subst l|rewrite E]
  end; simpl; intros [= <-]; [by left|by right].
Qed.

(** X9.  The promise of [usageRead] or [usageWrite] is never resolved with
    0, [NaN] or any other falsy value but [undefined]: a call that resolves
    either resolves with a truthy value and has logged nothing, or resolves
    with [undefined] and has logged the unknown-units message, once, after
    its wait. *)
Theorem resolved_value_is_truthy_or_logged opts w v :
  let cfg := apply_defaults opts in
  let waited := Delay (get_option cfg "sampleMs") in
  let logged := ConsoleLog (unknown_units_message (get_option cfg "units")) in
  (outcome (usageRead opts w) = Resolves v ->
   (truthy v = true /\ effects (usageRead opts w) = [waited]) \/
   (v = VUndefined /\ effects (usageRead opts w) = [waited; logged])) /\
  (outcome (usageWrite opts w) = Resolves v ->
   (truthy v = true /\ effects (usageWrite opts w) = [waited]) \/
   (v = VUndefined /\ effects (usageWrite opts w) = [waited; logged])).
Proof. split; apply usage_resolved_cases. Qed.

(** The idle write counter of the sample world: [undefined], with the
    message. *)
Lemma resolved_value_is_truthy_or_logged_witness :
  (truthy VUndefined = true /\
   effects (usageWrite ∅ busy_world)
   = [Delay (get_option (apply_defaults ∅) "sampleMs")]) \/
  (VUndefined = VUndefined /\
   effects (usageWrite ∅ busy_world)
   = [Delay (get_option (apply_defaults ∅) "sampleMs");
      ConsoleLog
        (unknown_units_message (get_option (apply_defaults ∅) "units"))]).
Proof.
  apply (resolved_value_is_truthy_or_logged ∅ busy_world VUndefined).
  vm_compute. reflexivity.
Defined.

(** ** The options object, used again *)

Lemma js_or_truthy a d : truthy d = true -> truthy (js_or a d) = true.
Proof. unfold js_or. by destruct (truthy a) eqn:E. Qed.

Lemma apply_defaults_idem opts :
  apply_defaults (apply_defaults opts) = apply_defaults opts.
Proof.
  apply map_eq. intros k. rewrite !apply_defaults_lookup.
  destruct (default_of k) as [d|] eqn:Hd; [|done].
  unfold get_option at 1. rewrite apply_defaults_lookup, Hd. simpl.
  f_equal. unfold js_or at 1.
  by rewrite js_or_truthy by by eapply default_truthy.
Qed.

(** X10.  The object a call has written its defaults into can be passed
    again: a later call of [usageRead] or [usageWrite] with it behaves in
    every respect as with the object the caller first made, and leaves it as
    it finds it. *)
Theorem options_object_can_be_reused opts w w' :
  usageRead (opts_after (usageRead opts w)) w' = usageRead opts w' /\
  usageRead (opts_after (usageWrite opts w)) w' = usageRead opts w' /\
  usageWrite (opts_after (usageRead opts w)) w' = usageWrite opts w' /\
  usageWrite (opts_after (usageWrite opts w)) w' = usageWrite opts w' /\
  opts_after (usageRead (opts_after (usageRead opts w)) w')
  = opts_after (usageRead opts w).
Proof.
  unfold usageRead, usageWrite. rewrite !usage_opts_after.
  repeat split; try apply usage_after_defaults; apply apply_defaults_idem.
Qed.

(** ** Counters that are no numbers *)

Lemma num_sub_nan_l y : num_sub NaN y = NaN.
Proof. done. Qed.

Lemma num_sub_nan_r x : num_sub x NaN = NaN.
Proof. by destruct x. Qed.

Lemma rate_nan d0 d1 size t :
  ToNumber d0 = NaN \/ ToNumber d1 = NaN ->
  totalBytesPerSecond d0 d1 size t = NaN.
Proof.
  unfold totalBytesPerSecond. intros [->| ->].
  - by rewrite num_sub_nan_r.
  - by rewrite num_sub_nan_l.
Qed.

Lemma bytesTo_nan u :
  u ∉ object_prototype_names ->
  _bytesTo NaN (VString u)
  = (VUndefined, [ConsoleLog (unknown_units_message (VString u))]).
Proof.
  intros Hu. destruct (decide (u ∈ recognized_units)) as [Hr|Hr].
  - by apply bytesTo_falsy.
  - by apply bytesTo_unknown.
Qed.

(** X11.  When the counter found at either read is no number, as for a
    line too short to have it or one that holds other text in its place,
    the rate is [NaN], and the call neither throws nor resolves with [NaN]:
    it resolves with [undefined] and logs the unknown-units message,
    whatever the unit asked for, the names every object inherits apart. *)
Theorem unreadable_counter_resolves_undefined u opts w r0 r1 :
  get_option (apply_defaults opts) "units" = VString u ->
  u ∉ object_prototype_names ->
  present (first_read w) (device_of opts) r0 ->
  present (second_read w) (device_of opts) r1 ->
  let waited := Delay (get_option (apply_defaults opts) "sampleMs") in
  let logged := ConsoleLog (unknown_units_message (VString u)) in
  (ToNumber (field_value (sectorsRead r0)) = NaN \/
   ToNumber (field_value (sectorsRead r1)) = NaN ->
   outcome (usageRead opts w) = Resolves VUndefined /\
   effects (usageRead opts w) = [waited; logged]) /\
  (ToNumber (field_value (sectorsWritten r0)) = NaN \/
   ToNumber (field_value (sectorsWritten r1)) = NaN ->
   outcome (usageWrite opts w) = Resolves VUndefined /\
   effects (usageWrite opts w) = [waited; logged]).
Proof.
  intros Hunits Hu H0 H1. simpl. unfold usageRead, usageWrite.
  rewrite !(usage_resolves opts w r0 r1 H0 H1). simpl. rewrite Hunits.
  split; intros Hnan; rewrite (rate_nan _ _ _ _ Hnan), bytesTo_nan by done;
    done.
Qed.

(** The line of [sda] has five fields at the second read. *)
Lemma unreadable_counter_resolves_undefined_witness :
  (outcome (usageRead ∅ stub_world) = Resolves VUndefined /\
   effects (usageRead ∅ stub_world)
   = [Delay (get_option (apply_defaults ∅) "sampleMs");
      ConsoleLog (unknown_units_message (VString "bytes"))]) /\
  (outcome (usageWrite ∅ stub_world) = Resolves VUndefined /\
   effects (usageWrite ∅ stub_world)
   = [Delay (get_option (apply_defaults ∅) "sampleMs");
      ConsoleLog (unknown_units_message (VString "bytes"))]).
Proof.
  assert (Hunits : get_option (apply_defaults ∅) "units" = VString "bytes").
  { vm_compute. reflexivity. }
  assert (Hu : "bytes" ∉ object_prototype_names).
  { by_decision. }
  assert (H0 : present (first_read stub_world) (device_of ∅)
                 (stats_of (fields (sda_line "1000" "7000")))).
  { by_parsing. }
  assert (H1 : present (second_read stub_world) (device_of ∅)
                 (stats_of (fields stub_row))).
  { by_parsing. }
  destruct (unreadable_counter_resolves_undefined "bytes" ∅ stub_world _ _
              Hunits Hu H0 H1) as [Hr Hw].
  split; [apply Hr|apply Hw]; right; reflexivity.
Defined.

(** ** Units every object inherits *)

Lemma prototype_name_unrecognized u :
  u ∈ object_prototype_names -> u ∉ recognized_units.
Proof.
  unfold object_prototype_names. rewrite !elem_of_cons, elem_of_nil.
  intros H Hr. apply recognized_cases in Hr.
  repeat (destruct H as [->|H]; [by repeat (destruct Hr as [Hr|Hr]; [done|])|]).
  done.
Qed.

Lemma bytesTo_inherited b u :
  u ∈ object_prototype_names -> _bytesTo b (VString u) = (VBuiltin u, []).
Proof.
  intros Hu. unfold _bytesTo, get_property. simpl.
  rewrite unit_table_other by by apply prototype_name_unrecognized.
  unfold inherited. by rewrite bool_decide_eq_true_2.
Qed.

(** X12.  A unit that names a property every object inherits, such as
    [toString] or [constructor], is found in the table of line 81 through
    its prototype: [_bytesTo] returns that inherited member, whatever the
    number, and logs nothing, and [usageRead] and [usageWrite] resolve with
    it. *)
Theorem inherited_name_as_units b u opts w r0 r1 :
  u ∈ object_prototype_names ->
  _bytesTo b (VString u) = (VBuiltin u, []) /\
  (get_option (apply_defaults opts) "units" = VString u ->
   present (first_read w) (device_of opts) r0 ->
   present (second_read w) (device_of opts) r1 ->
   outcome (usageRead opts w) = Resolves (VBuiltin u) /\
   outcome (usageWrite opts w) = Resolves (VBuiltin u)).
Proof.
  intros Hu. split; [by apply bytesTo_inherited|].
  intros Hunits H0 H1. unfold usageRead, usageWrite.
  rewrite !(usage_resolves opts w r0 r1 H0 H1). simpl.
  by rewrite Hunits, !bytesTo_inherited.
Qed.

Lemma inherited_name_as_units_witness :
  _bytesTo (num_of_Z 1048576) (VString "toString")
  = (VBuiltin "toString", []) /\
  outcome (usageRead {[ "units" := VString "toString" ]} busy_world)
  = Resolves (VBuiltin "toString") /\
  outcome (usageWrite {[ "units" := VString "toString" ]} busy_world)
  = Resolves (VBuiltin "toString").
Proof.
  assert (Hu : "toString" ∈ object_prototype_names).
  { by_decision. }
  destruct (inherited_name_as_units (num_of_Z 1048576) "toString"
              {[ "units" := VString "toString" ]} busy_world
              (stats_of (fields (sda_line "1000" "7000")))
              (stats_of (fields (sda_line "3000" "7000"))) Hu)
    as [Hconv Hcall].
  split; [exact Hconv|]. apply Hcall.
  - vm_compute. reflexivity.
  - by_parsing.
  - by_parsing.
Defined.

(** ** A counter that went down *)

Lemma binary_round_aux_opp s m e l :
  binary_round_aux prec emax (negb s) m e l
  = num_neg (binary_round_aux prec emax s m e l).
Proof.
  unfold binary_round_aux.
  destruct (shr_fexp prec emax m e l) as [mrs' e'].
  destruct (shr_fexp prec emax _ e' loc_Exact) as [mrs'' e''].
  destruct (shr_m mrs'') as [|p|p]; [done| |done].
  by destruct (e'' <=? emax - prec).
Qed.

Lemma binary_round_opp s m e :
  binary_round prec emax (negb s) m e = num_neg (binary_round prec emax s m e).
Proof.
  unfold binary_round. destruct (shl_align m e _) as [mz ez].
  apply binary_round_aux_opp.
Qed.

Lemma num_mul_neg_l x y : num_mul (num_neg x) y = num_neg (num_mul x y).
Proof.
  destruct x as [sx|sx| |sx mx ex], y as [sy|sy| |sy my ey]; try done;
    try (by destruct sx, sy).
  unfold num_mul, SFmul. simpl.
  replace (xorb (negb sx) sy) with (negb (xorb sx sy)) by by destruct sx, sy.
  apply binary_round_aux_opp.
Qed.

Lemma num_div_neg_l x y : num_div (num_neg x) y = num_neg (num_div x y).
Proof.
  destruct x as [sx|sx| |sx mx ex], y as [sy|sy| |sy my ey]; try done;
    try (by destruct sx, sy).
  unfold num_div, SFdiv. simpl.
  destruct (SFdiv_core_binary prec emax _ _ _ _) as [[mz ez] lz].
  replace (xorb (negb sx) sy) with (negb (xorb sx sy)) by by destruct sx, sy.
  apply binary_round_aux_opp.
Qed.

Lemma binary_normalize_opp m e :
  m <> 0 ->
  binary_normalize prec emax (- m) e false
  = num_neg (binary_normalize prec emax m e false).
Proof.
  destruct m as [|p|p]; [done| |]; intros _; simpl.
  - apply (binary_round_opp false).
  - apply (binary_round_opp true).
Qed.

Lemma non_positive_neg x :
  non_negative x = true -> non_positive (num_neg x) = true.
Proof. by destruct x as [[]|[]| |[] m e]. Qed.

(** The difference of two integers below [2 ^ 53] is exact when it is
    negative, too. *)
Lemma num_sub_exact_down R0 R1 :
  0 <= R1 < R0 -> R0 < 2 ^ 53 ->
  num_sub (num_of_Z R1) (num_of_Z R0) = num_neg (num_of_Z (R0 - R1)).
Proof.
  intros [H1 H10] H0.
  destruct R0 as [|q0|q0]; [lia| |lia].
  destruct R1 as [|q1|q1]; [|clear H1|lia].
  - rewrite Z.sub_0_r. by rewrite num_of_Z_pos.
  - assert (Hq1 : Z.pos q1 < 2 ^ 53) by lia.
    rewrite <- (num_sub_exact (Z.pos q1) (Z.pos q0)) by lia.
    rewrite !num_of_Z_pos by done. unfold normal, num_sub, SFsub.
    simpl cond_Zopp. rewrite (Z.min_comm (Z.pos (digits2_pos q0) - 53)).
    set (ez := Z.min _ _). set (a := Z.pos (fst (shl_align _ _ ez))).
    set (b := Z.pos (fst (shl_align _ _ ez))).
    replace (a - b) with (- (b - a)) by lia.
    apply binary_normalize_opp.
    pose proof (digits2_pos_small q0 H0) as Hd0.
    pose proof (digits2_pos_small q1 Hq1) as Hd1.
    unfold a, b. rewrite !normal_value by (done || unfold ez; lia).
    assert (0 < 2 ^ (- ez)) by (apply Z.pow_pos_nonneg; unfold ez; lia).
    nia.
Qed.

(** X13.  Nothing guards against a counter that went down between the two
    reads, as after a reset: for counters [R1 < R0] below [2 ^ 53], a
    positive sector size and an elapsed time as [process.hrtime] reports it,
    the rate of lines 117-118 is zero or below, and it is the negative of
    the rate the two readings give in the other order. *)
Theorem rate_of_falling_counter s0 s1 R0 R1 sectorSize sec nsec :
  decimal s0 = Some R0 -> decimal s1 = Some R1 ->
  R1 < R0 -> R0 < 2 ^ 53 ->
  positive_finite (ToNumber sectorSize) = true ->
  0 <= sec < 2 ^ 53 -> 0 <= nsec < 10 ^ 9 -> 0 < sec + nsec ->
  let t := diffSeconds (sec, nsec) in
  let rate := totalBytesPerSecond (VString s0) (VString s1) sectorSize t in
  non_positive rate = true /\
  rate = num_neg (totalBytesPerSecond (VString s1) (VString s0) sectorSize t).
Proof.
  intros Hs0 Hs1 Hlt Hbound Hsize Hsec Hnsec Hpos. simpl.
  pose proof (decimal_nonneg _ _ Hs1) as H1.
  pose proof (elapsed_squared_positive sec nsec Hsec Hnsec Hpos) as Htime.
  unfold totalBytesPerSecond. simpl ToNumber.
  rewrite (decimal_number _ _ Hs0), (decimal_number _ _ Hs1).
  rewrite num_sub_exact_down, num_sub_exact by lia.
  rewrite num_mul_neg_l, num_div_neg_l. split; [|done].
  destruct (num_of_Z_small (R0 - R1)) as [Hnn Hfin]; [lia|].
  apply non_positive_neg, num_div_nonneg; [|done]. by apply num_mul_nonneg.
Qed.

(** From 3000 sectors down to 1000 in a second and a half. *)
Lemma rate_of_falling_counter_witness :
  non_positive
    (totalBytesPerSecond (VString "3000") (VString "1000")
       (VNumber (num_of_Z 512)) (diffSeconds (1, 500000000))) = true /\
  totalBytesPerSecond (VString "3000") (VString "1000")
    (VNumber (num_of_Z 512)) (diffSeconds (1, 500000000))
  = num_neg (totalBytesPerSecond (VString "1000") (VString "3000")
               (VNumber (num_of_Z 512)) (diffSeconds (1, 500000000))).
Proof.
  apply (rate_of_falling_counter "3000" "1000" 3000 1000
           (VNumber (num_of_Z 512)) 1 500000000).
  - reflexivity.
  - reflexivity.
  - lia.
  - reflexivity.
  - reflexivity.
  - lia.
  - lia.
  - lia.
Defined.

(** ** A counter that went up *)

(** The quotient of two numbers that neither underflow nor overflow. *)
Lemma num_div_normal a b c d x y :
  normal_between a b x -> normal_between c d y ->
  -1074 <= a - d - 53 -> b - c - 51 <= 971 ->
  normal_between (a - d - 53) (b - c - 51) (num_div x y).
Proof.
  intros (mx & ex & -> & Hdx & Hex) (my & ey & -> & Hdy & Hey) Hlo Hhi.
  unfold num_div, SFdiv, SFdiv_core_binary. simpl xorb.
  simpl Zdigits2. rewrite Hdx, Hdy.
  replace (Z.min (fexp prec emax (53 + ex - (53 + ey))) (ex - ey))
    with (ex - ey - 53)
    by (unfold fexp, SpecFloat.emin, prec, emax; lia).
  replace (ex - ey - (ex - ey - 53)) with 53 by lia.
  pose proof (full_mantissa mx Hdx) as Hmx.
  pose proof (full_mantissa my Hdy) as Hmy.
  rewrite Z.shiftl_mul_pow2 by lia.
  pose proof (Z.div_mod (Z.pos mx * 2 ^ 53) (Z.pos my) ltac:(lia)) as Hdiv.
  pose proof (Z.mod_pos_bound (Z.pos mx * 2 ^ 53) (Z.pos my) ltac:(lia))
    as Hmod.
  unfold Z.div, Z.modulo in Hdiv, Hmod.
  destruct (Z.div_eucl (Z.pos mx * 2 ^ 53) (Z.pos my)) as [q r].
  assert (Hq : 2 ^ 52 <= q < 2 ^ 54).
  { change (2 ^ 54) with (2 * 2 ^ 53) in *.
    change (2 ^ 53) with (2 * 2 ^ 52) in *. nia. }
  assert (Hd : Zdigits2 q = 53 \/ Zdigits2 q = 54).
  { destruct (Z.lt_ge_cases q (2 ^ 53)).
    - left. apply Zdigits2_unique; lia.
    - right. apply Zdigits2_unique; lia. }
  destruct (round_normal false q (ex - ey - 53) (new_location (Z.pos my) r))
    as (m' & e' & -> & Hm' & He'); [lia|lia|lia|lia|].
  exists m', e'. split; [done|]. split; [done|lia].
Qed.

Lemma unit_constants_normal :
  normal_between (-42) (-42) KiB /\ normal_between (-32) (-32) MiB /\
  normal_between (-22) (-22) GiB.
Proof.
  repeat split;
    (eexists _, _; split; [vm_compute; reflexivity|]; split; [done|lia]).
Qed.

Lemma truthy_normal lo hi x : normal_between lo hi x -> truthy (VNumber x) = true.
Proof. by intros (m & e & -> & _). Qed.

(** A number within the range of the rates converts to a positive finite
    number, whatever the recognized unit, and nothing is logged. *)
Lemma bytesTo_normal x u :
  normal_between (-163) 115 x -> u ∈ recognized_units ->
  exists y, _bytesTo x (VString u) = (VNumber y, []) /\ positive_finite y = true.
Proof.
  intros Hx Hu. destruct unit_constants_normal as (HK & HM & HG).
  pose proof (num_div_normal _ _ _ _ _ _ Hx HK ltac:(lia) ltac:(lia)) as H1.
  pose proof (num_div_normal _ _ _ _ _ _ H1 HM ltac:(lia) ltac:(lia)) as H2.
  pose proof (num_div_normal _ _ _ _ _ _ H2 HG ltac:(lia) ltac:(lia)) as H3.
  unfold _bytesTo, get_property. simpl ToString.
  apply recognized_cases in Hu as [E|[E|[E|E]]]; subst u.
  - rewrite unit_table_bytes, (truthy_normal _ _ _ Hx).
    eexists. split; [done|]. by eapply normal_between_positive.
  - rewrite unit_table_KiB, (truthy_normal _ _ _ H1).
    eexists. split; [done|]. by eapply normal_between_positive.
  - rewrite unit_table_MiB, (truthy_normal _ _ _ H2).
    eexists. split; [done|]. by eapply normal_between_positive.
  - rewrite unit_table_GiB, (truthy_normal _ _ _ H3).
    eexists. split; [done|]. by eapply normal_between_positive.
Qed.

(** The rate of a counter that went up, for a whole number of bytes per
    sector, neither underflows nor overflows. *)
Lemma rate_normal s0 s1 R0 R1 sectorSize S sec nsec :
  decimal s0 = Some R0 -> decimal s1 = Some R1 ->
  R0 < R1 -> R1 < 2 ^ 53 ->
  ToNumber sectorSize = num_of_Z S -> 0 < S < 2 ^ 53 ->
  0 <= sec < 2 ^ 53 -> 0 <= nsec < 10 ^ 9 -> 0 < sec + nsec ->
  normal_between (-163) 115
    (totalBytesPerSecond (VString s0) (VString s1) sectorSize
       (diffSeconds (sec, nsec))).
Proof.
  intros Hs0 Hs1 Hlt Hbound Hsize HS Hsec Hnsec Hpos.
  pose proof (decimal_nonneg _ _ Hs0) as H0.
  pose proof (diffSeconds_normal sec nsec Hsec Hnsec Hpos) as Ht.
  unfold totalBytesPerSecond. simpl ToNumber.
  rewrite (decimal_number _ _ Hs0), (decimal_number _ _ Hs1), Hsize.
  rewrite num_sub_exact by lia.
  apply (num_div_normal (-52) 54 (-112) 58); [| |lia|lia].
  - apply (num_mul_normal (-52) 0 (-52) 0); [| |lia|lia].
    + apply (num_of_Z_normal _ 53); lia.
    + apply (num_of_Z_normal _ 53); lia.
  - by apply (num_mul_normal (-82) 2 (-82) 2).
Qed.

(** X14.  On the path the code is written for, a call succeeds.  When the
    device is in both snapshots, its counter is a decimal number below
    [2 ^ 53] that went up between the reads, the sector size is a whole
    number of bytes, the unit is one of the four and the elapsed time is as
    [process.hrtime] reports it, [usageRead] (and [usageWrite], on the other
    counter) waits once, logs nothing, and resolves with a finite number
    above zero: neither an underflow to 0, which would come out as
    [undefined], nor an overflow to [Infinity] can happen. *)
Theorem rising_counter_resolves_positive u opts w r0 r1 s0 s1 R0 R1 S :
  let cfg := apply_defaults opts in
  get_option cfg "units" = VString u -> u ∈ recognized_units ->
  ToNumber (get_option cfg "sectorSizeBytes") = num_of_Z S -> 0 < S < 2 ^ 53 ->
  present (first_read w) (device_of opts) r0 ->
  present (second_read w) (device_of opts) r1 ->
  decimal s0 = Some R0 -> decimal s1 = Some R1 -> R0 < R1 -> R1 < 2 ^ 53 ->
  0 <= fst (hrtime_diff w) < 2 ^ 53 -> 0 <= snd (hrtime_diff w) < 10 ^ 9 ->
  0 < fst (hrtime_diff w) + snd (hrtime_diff w) ->
  (sectorsRead r0 = Some s0 -> sectorsRead r1 = Some s1 ->
   exists x,
     positive_finite x = true /\
     outcome (usageRead opts w) = Resolves (VNumber x) /\
     effects (usageRead opts w) = [Delay (get_option cfg "sampleMs")]) /\
  (sectorsWritten r0 = Some s0 -> sectorsWritten r1 = Some s1 ->
   exists x,
     positive_finite x = true /\
     outcome (usageWrite opts w) = Resolves (VNumber x) /\
     effects (usageWrite opts w) = [Delay (get_option cfg "sampleMs")]).
Proof.
  intros cfg Hunits Hu Hsize HS H0 H1 Hs0 Hs1 Hlt Hbound Hsec Hnsec Hpos.
  unfold usageRead, usageWrite.
  rewrite !(usage_resolves opts w r0 r1 H0 H1). simpl. fold cfg.
  rewrite Hunits. destruct (hrtime_diff w) as [sec nsec]. simpl in *.
  split; intros -> ->; simpl field_value;
    (destruct (bytesTo_normal _ u
                 (rate_normal s0 s1 R0 R1 _ S sec nsec
                    Hs0 Hs1 Hlt Hbound Hsize HS Hsec Hnsec Hpos) Hu)
       as (y & -> & Hy));
    by exists y.
Qed.

(** The read counter of the sample world, from 1000 to 3000 in a second,
    with no option given. *)
Lemma rising_counter_resolves_positive_witness :
  exists x,
    positive_finite x = true /\
    outcome (usageRead ∅ busy_world) = Resolves (VNumber x) /\
    effects (usageRead ∅ busy_world)
    = [Delay (get_option (apply_defaults ∅) "sampleMs")].
Proof.
  refine (proj1 (rising_counter_resolves_positive "bytes" ∅ busy_world
            (stats_of (fields (sda_line "1000" "7000")))
            (stats_of (fields (sda_line "3000" "7000")))
            "1000" "3000" 1000 3000 512 _ _ _ _ _ _ _ _ _ _ _ _ _) _ _).
  - vm_compute. reflexivity.
  - by_decision.
  - reflexivity.
  - lia.
  - by_parsing.
  - by_parsing.
  - reflexivity.
  - reflexivity.
  - lia.
  - reflexivity.
  - simpl. lia.
  - simpl. lia.
  - simpl. lia.
  - reflexivity.
  - reflexivity.
Defined.

(** ** What the later units come to *)

Lemma div_core_pow2 m e k :
  Z.pos (digits2_pos m) = 53 -> -1073 <= e - k ->
  SFdiv_core_binary prec emax (Z.pos m) e (Z.pos (2 ^ 52)) (k - 52)
  = (Z.pos m~0, e - k - 1, loc_Exact).
Proof.
  intros Hd Hlo. unfold SFdiv_core_binary.
  change (Zdigits2 (Z.pos (2 ^ 52))) with 53.
  change (Zdigits2 (Z.pos m)) with (Z.pos (digits2_pos m)). rewrite Hd.
  replace (Z.min (fexp prec emax (53 + e - (53 + (k - 52)))) (e - (k - 52)))
    with (e - k - 1)
    by (unfold fexp, SpecFloat.emin, prec, emax; lia).
  replace (e - (k - 52) - (e - k - 1)) with 53 by lia.
  cbv iota. rewrite Z.shiftl_mul_pow2 by lia.
  pose proof (Z.div_eucl_eq (Z.pos m * 2 ^ 53) (Z.pos (2 ^ 52)) ltac:(lia))
    as E.
  pose proof (Z.mod_pos_bound (Z.pos m * 2 ^ 53) (Z.pos (2 ^ 52)) ltac:(lia))
    as B.
  unfold Z.modulo in B.
  destruct (Z.div_eucl (Z.pos m * 2 ^ 53) (Z.pos (2 ^ 52))) as [q r].
  change (Z.pos (2 ^ 52)) with (2 ^ 52) in E, B.
  change (2 ^ 53) with (2 * 2 ^ 52) in E.
  assert (r = 0 /\ q = Z.pos m~0) as [-> ->] by nia.
  done.
Qed.

Lemma round_doubled m e :
  Z.pos (digits2_pos m) = 53 -> -1075 <= e -> e + 1 <= 971 ->
  binary_round_aux prec emax false (Z.pos m~0) e loc_Exact
  = S754_finite false m (e + 1).
Proof.
  intros Hd Hlo Hhi. unfold binary_round_aux. unfold shr_fexp at 1.
  change (Zdigits2 (Z.pos m~0)) with (Z.pos (Pos.succ (digits2_pos m))).
  rewrite Pos2Z.inj_succ, Hd.
  replace (fexp prec emax (Z.succ 53 + e) - e) with 1
    by (unfold fexp, SpecFloat.emin, prec, emax; lia).
  simpl. rewrite shr_fexp_canonical by (done || lia). simpl.
  destruct (e + 1 <=? emax - prec) eqn:L; [done|].
  apply Z.leb_gt in L. unfold emax, prec in L. lia.
Qed.

(** Dividing by a power of two moves the exponent and rounds nothing, as
    long as the quotient does not underflow. *)
Lemma num_div_pow2 m e k :
  Z.pos (digits2_pos m) = 53 -> -1073 <= e - k -> e - k <= 971 ->
  num_div (S754_finite false m e) (pow2 k) = S754_finite false m (e - k).
Proof.
  intros Hd Hlo Hhi. unfold num_div, SFdiv, pow2.
  rewrite div_core_pow2 by done. simpl xorb.
  rewrite round_doubled by (done || lia). f_equal. lia.
Qed.

Lemma unit_constants_pow2 : KiB = pow2 10 /\ MiB = pow2 20 /\ GiB = pow2 30.
Proof. repeat split; vm_compute; reflexivity. Qed.

(** X15.  What the compounding divisions of lines 83-85 come to, for any
    positive number that is not so small that a quotient underflows: asked
    for [KiB], [_bytesTo] returns the number of KiB; asked for [MiB], it
    returns the number of GiB, no bit of it different; asked for [GiB], it
    returns the number of GiB divided by [2 ^ 30] once more. *)
Theorem conversions_compound x :
  normal_between (-1013) 971 x ->
  _bytesTo x (VString "KiB") = (VNumber (num_div x KiB), []) /\
  _bytesTo x (VString "MiB") = (VNumber (num_div x GiB), []) /\
  _bytesTo x (VString "GiB") = (VNumber (num_div (num_div x GiB) GiB), []).
Proof.
  intros (m & e & -> & Hd & He).
  unfold _bytesTo, get_property. simpl ToString.
  rewrite unit_table_KiB, unit_table_MiB, unit_table_GiB.
  destruct unit_constants_pow2 as (-> & -> & ->).
  rewrite !num_div_pow2 by (done || lia).
  replace (e - 10 - 20) with (e - 30) by lia.
  replace (e - 30 - 30) with (e - 60) by lia.
  done.
Qed.

(** One gibibyte: 1048576 KiB, and [1] for the MiB. *)
Lemma conversions_compound_witness :
  _bytesTo (num_of_Z 1073741824) (VString "KiB")
  = (VNumber (num_div (num_of_Z 1073741824) KiB), []) /\
  _bytesTo (num_of_Z 1073741824) (VString "MiB")
  = (VNumber (num_div (num_of_Z 1073741824) GiB), []) /\
  _bytesTo (num_of_Z 1073741824) (VString "GiB")
  = (VNumber (num_div (num_div (num_of_Z 1073741824) GiB) GiB), []).
Proof.
  apply (conversions_compound (num_of_Z 1073741824)).
  eexists _, _. split; [vm_compute; reflexivity|]. split; [reflexivity|lia].
Defined.

(** ** What a call reads of the file *)

(** X16.  A call reads one counter of one line and nothing else of the
    file: two runs over the same elapsed time that find the same
    [sectorsRead] for the device at the first read and the same at the
    second are the same run of [usageRead], whatever other lines and other
    columns the files hold; and so for [usageWrite] and [sectorsWritten]. *)
Theorem usage_reads_one_counter opts w w' r0 r1 r0' r1' :
  present (first_read w) (device_of opts) r0 ->
  present (second_read w) (device_of opts) r1 ->
  present (first_read w') (device_of opts) r0' ->
  present (second_read w') (device_of opts) r1' ->
  hrtime_diff w = hrtime_diff w' ->
  (sectorsRead r0 = sectorsRead r0' -> sectorsRead r1 = sectorsRead r1' ->
   usageRead opts w = usageRead opts w') /\
  (sectorsWritten r0 = sectorsWritten r0' ->
   sectorsWritten r1 = sectorsWritten r1' ->
   usageWrite opts w = usageWrite opts w').
Proof.
  intros H0 H1 H0' H1' Ht. unfold usageRead, usageWrite.
  rewrite !(usage_resolves opts w r0 r1 H0 H1),
    !(usage_resolves opts w' r0' r1' H0' H1'), Ht.
  split; by intros -> ->.
Qed.

Lemma usage_reads_one_counter_witness :
  usageRead ∅ busy_world = usageRead ∅ crowded_world.
Proof.
  refine (proj1 (usage_reads_one_counter ∅ busy_world crowded_world
            (stats_of (fields (sda_line "1000" "7000")))
            (stats_of (fields (sda_line "3000" "7000")))
            (stats_of (fields (sda_line "1000" "1")))
            (stats_of (fields (sda_line "3000" "2"))) _ _ _ _ _) _ _).
  - by_parsing.
  - by_parsing.
  - by_parsing.
  - by_parsing.
  - reflexivity.
  - reflexivity.
  - reflexivity.
Defined.

(** ** What a counter that went down resolves with *)

Lemma negative_neg x :
  positive_finite x = true -> negative_finite (num_neg x) = true.
Proof. by destruct x as [[]|[]| |[] m e]. Qed.

Lemma truthy_neg x : truthy (VNumber (num_neg x)) = truthy (VNumber x).
Proof. by destruct x as [[]|[]| |[] m e]. Qed.

(** The table of a negated number holds the negated entries. *)
Lemma unit_table_neg x u :
  unit_table (num_neg x) !! u
  = (fun v => match v with VNumber y => VNumber (num_neg y) | _ => v end)
      <$> unit_table x !! u.
Proof.
  unfold unit_table. rewrite !num_div_neg_l.
  destruct (decide (u = "GiB")) as [->|?]; [by simplify_map_eq|].
  destruct (decide (u = "MiB")) as [->|?]; [by simplify_map_eq|].
  destruct (decide (u = "KiB")) as [->|?]; [by simplify_map_eq|].
  destruct (decide (u = "bytes")) as [->|?]; by simplify_map_eq.
Qed.

Lemma bytesTo_neg_normal x u :
  normal_between (-163) 115 x -> u ∈ recognized_units ->
  exists y,
    _bytesTo (num_neg x) (VString u) = (VNumber y, []) /\
    negative_finite y = true.
Proof.
  intros Hx Hu. destruct (bytesTo_normal x u Hx Hu) as (y & Hy & Hpos).
  exists (num_neg y). split; [|by apply negative_neg].
  revert Hy. unfold _bytesTo, get_property. simpl ToString.
  rewrite unit_table_neg.
  destruct (unit_table x !! u) as [v|] eqn:E; simpl.
  - destruct (truthy v) eqn:Ht; [|done]. intros [= ->].
    by rewrite truthy_neg, Ht.
  - destruct (truthy (inherited u)); [|done]. intros [= Hi].
    unfold inherited in Hi. by destruct (bool_decide _).
Qed.

(** X17.  A counter that went down is reported as a rate below zero.  When
    the device is in both snapshots, its counter is a decimal number below
    [2 ^ 53] whose second reading is below the first, the sector size is a
    whole number of bytes, the unit is one of the four and the elapsed time
    is as [process.hrtime] reports it, [usageRead] (and [usageWrite], on the
    other counter) throws nothing and logs nothing: it waits once and
    resolves with a finite negative number. *)
Theorem falling_counter_resolves_negative u opts w r0 r1 s0 s1 R0 R1 S :
  let cfg := apply_defaults opts in
  get_option cfg "units" = VString u -> u ∈ recognized_units ->
  ToNumber (get_option cfg "sectorSizeBytes") = num_of_Z S -> 0 < S < 2 ^ 53 ->
  present (first_read w) (device_of opts) r0 ->
  present (second_read w) (device_of opts) r1 ->
  decimal s0 = Some R0 -> decimal s1 = Some R1 -> R1 < R0 -> R0 < 2 ^ 53 ->
  0 <= fst (hrtime_diff w) < 2 ^ 53 -> 0 <= snd (hrtime_diff w) < 10 ^ 9 ->
  0 < fst (hrtime_diff w) + snd (hrtime_diff w) ->
  (sectorsRead r0 = Some s0 -> sectorsRead r1 = Some s1 ->
   exists x,
     negative_finite x = true /\
     outcome (usageRead opts w) = Resolves (VNumber x) /\
     effects (usageRead opts w) = [Delay (get_option cfg "sampleMs")]) /\
  (sectorsWritten r0 = Some s0 -> sectorsWritten r1 = Some s1 ->
   exists x,
     negative_finite x = true /\
     outcome (usageWrite opts w) = Resolves (VNumber x) /\
     effects (usageWrite opts w) = [Delay (get_option cfg "sampleMs")]).
Proof.
  intros cfg Hunits Hu Hsize HS H0 H1 Hs0 Hs1 Hlt Hbound Hsec Hnsec Hpos.
  pose proof (decimal_nonneg _ _ Hs1) as HR1.
  unfold usageRead, usageWrite.
  rewrite !(usage_resolves opts w r0 r1 H0 H1). simpl. fold cfg.
  rewrite Hunits. destruct (hrtime_diff w) as [sec nsec]. simpl in *.
  assert (Hrate :
    totalBytesPerSecond (VString s0) (VString s1)
      (get_option cfg "sectorSizeBytes") (diffSeconds (sec, nsec))
    = num_neg (totalBytesPerSecond (VString s1) (VString s0)
                 (get_option cfg "sectorSizeBytes")
                 (diffSeconds (sec, nsec)))).
  { unfold totalBytesPerSecond. simpl ToNumber.
    rewrite (decimal_number _ _ Hs0), (decimal_number _ _ Hs1).
    rewrite num_sub_exact_down, num_sub_exact by lia.
    by rewrite num_mul_neg_l, num_div_neg_l. }
  split; intros -> ->; simpl field_value; rewrite Hrate;
    (destruct (bytesTo_neg_normal _ u
                 (rate_normal s1 s0 R1 R0 _ S sec nsec
                    Hs1 Hs0 Hlt Hbound Hsize HS Hsec Hnsec Hpos) Hu)
       as (y & -> & Hy));
    by exists y.
Qed.

(** From 3000 sectors read down to 1000 within a second. *)
Lemma falling_counter_resolves_negative_witness :
  exists x,
    negative_finite x = true /\
    outcome (usageRead ∅ reset_world) = Resolves (VNumber x) /\
    effects (usageRead ∅ reset_world)
    = [Delay (get_option (apply_defaults ∅) "sampleMs")].
Proof.
  refine (proj1 (falling_counter_resolves_negative "bytes" ∅ reset_world
            (stats_of (fields (sda_line "3000" "7000")))
            (stats_of (fields (sda_line "1000" "7000")))
            "3000" "1000" 3000 1000 512 _ _ _ _ _ _ _ _ _ _ _ _ _) _ _).
  - vm_compute. reflexivity.
  - by_decision.
  - reflexivity.
  - lia.
  - by_parsing.
  - by_parsing.
  - reflexivity.
  - reflexivity.
  - lia.
  - reflexivity.
  - simpl. lia.
  - simpl. lia.
  - simpl. lia.
  - reflexivity.
  - reflexivity.
Defined.

(** ** The wait *)

Lemma usage_effects_present counter opts w r0 :
  present (first_read w) (device_of opts) r0 ->
  let cfg := apply_defaults opts in
  effects (usage counter opts w) = [Delay (get_option cfg "sampleMs")] \/
  effects (usage counter opts w)
  = [Delay (get_option cfg "sampleMs");
     ConsoleLog (unknown_units_message (get_option cfg "units"))].
Proof.
  intros H0. simpl. unfold usage, device_of in *.
  rewrite (read_counter_present _ _ _ _ H0).
  destruct (read_counter _ (second_read w) _) as [d1|]; [|by left].
  match goal with |- context [_bytesTo ?b ?u] =>
    destruct (bytesTo_cases b u) as [[Ht Hl]|E];
    [destruct (_bytesTo b u) as [c l]; simpl in *; subst l|rewrite E]
  end; simpl; [by left|by right].
Qed.

(** X2.  A call that finds its device at the first read waits exactly once,
    for [opts.sampleMs] when that is truthy and for 1000 milliseconds
    otherwise: the wait is the first thing it does to the world, and the
    only other thing it may do is to log the unknown-units message after
    it. *)
Theorem usage_waits_for_sampleMs opts w r0 :
  present (first_read w) (device_of opts) r0 ->
  let waited :=
    Delay (js_or (get_option opts "sampleMs") (VNumber (num_of_Z 1000))) in
  let logged :=
    ConsoleLog
      (unknown_units_message (get_option (apply_defaults opts) "units")) in
  (effects (usageRead opts w) = [waited] \/
   effects (usageRead opts w) = [waited; logged]) /\
  (effects (usageWrite opts w) = [waited] \/
   effects (usageWrite opts w) = [waited; logged]).
Proof.
  intros H0. cbv zeta.
  assert (Hms : get_option (apply_defaults opts) "sampleMs"
                = js_or (get_option opts "sampleMs") (VNumber (num_of_Z 1000))).
  { unfold get_option at 1. by rewrite apply_defaults_lookup. }
  rewrite <- Hms. unfold usageRead, usageWrite.
  split; by apply usage_effects_present with r0.
Qed.

(** A wait of 200 milliseconds, and nothing else or the message behind it. *)
Lemma usage_waits_for_sampleMs_witness :
  (effects (usageRead (<[ "sampleMs" := VNumber (num_of_Z 200) ]> ∅)
              busy_world)
   = [Delay (VNumber (num_of_Z 200))] \/
   effects (usageRead (<[ "sampleMs" := VNumber (num_of_Z 200) ]> ∅)
              busy_world)
   = [Delay (VNumber (num_of_Z 200));
      ConsoleLog (unknown_units_message (VString "bytes"))]) /\
  (effects (usageWrite (<[ "sampleMs" := VNumber (num_of_Z 200) ]> ∅)
              busy_world)
   = [Delay (VNumber (num_of_Z 200))] \/
   effects (usageWrite (<[ "sampleMs" := VNumber (num_of_Z 200) ]> ∅)
              busy_world)
   = [Delay (VNumber (num_of_Z 200));
      ConsoleLog (unknown_units_message (VString "bytes"))]).
Proof.
  refine (usage_waits_for_sampleMs
            (<[ "sampleMs" := VNumber (num_of_Z 200) ]> ∅) busy_world
            (stats_of (fields (sda_line "1000" "7000"))) _).
  by_parsing.
Defined.

(** ** Counters beyond [2 ^ 53] keep their order *)

Lemma shr_1_mono a b :
  0 <= shr_m a -> shr_le a b -> shr_le (shr_1 a) (shr_1 b).
Proof.
  destruct a as [ma ra sa], b as [mb rb sb]. unfold shr_le, loc_code. simpl.
  intros Ha [Hlt|[-> Hl]].
  - destruct ma as [|[pa|pa|]|pa], mb as [|[pb|pb|]|pb]; simpl; try lia;
      destruct ra, sa, rb, sb; simpl; lia.
  - destruct mb as [|[pb|pb|]|pb]; simpl; try lia;
      destruct ra, sa, rb, sb; simpl in *; lia.
Qed.

Lemma shr_iter_mono k a b :
  0 <= shr_m a -> shr_le a b ->
  shr_le (Nat.iter k shr_1 a) (Nat.iter k shr_1 b).
Proof.
  intros Ha Hab. induction k as [|k IH]; [done|]. simpl.
  apply shr_1_mono; [|done]. rewrite shr_iter_div by done.
  apply Z.div_pos; lia.
Qed.

Lemma round_nearest_even_mono a b :
  shr_le a b ->
  round_nearest_even (shr_m a) (loc_of_shr_record a)
  <= round_nearest_even (shr_m b) (loc_of_shr_record b).
Proof.
  destruct a as [ma ra sa], b as [mb rb sb]. unfold shr_le, loc_code. simpl.
  intros [Hlt|[-> Hl]].
  - destruct ra, sa, rb, sb; simpl; try lia;
      repeat (destruct (Z.even _)); lia.
  - destruct ra, sa, rb, sb; simpl in *; try lia;
      repeat (destruct (Z.even _)); lia.
Qed.

Lemma rounded_mono R0 R1 k : 0 <= R0 <= R1 -> rounded R0 k <= rounded R1 k.
Proof.
  intros [H0 H01]. unfold rounded. apply round_nearest_even_mono.
  apply shr_iter_mono; [done|]. unfold shr_le, loc_code. simpl. lia.
Qed.

(** The binary64 number of an integer of more than 53 digits: its 53
    leading digits rounded, with one more shift when they round up to
    [2 ^ 53]. *)
Lemma num_of_Z_big p :
  let d := Z.pos (digits2_pos p) in
  53 < d -> d <= 1023 ->
  let m1 := rounded (Z.pos p) (Z.to_nat (d - 53)) in
  2 ^ 52 <= m1 <= 2 ^ 53 /\
  num_of_Z (Z.pos p)
  = if m1 =? 2 ^ 53 then S754_finite false (2 ^ 52) (d - 53 + 1)
    else S754_finite false (Z.to_pos m1) (d - 53).
Proof.
  intros d Hlo Hhi m1.
  assert (Hq : 2 ^ 52 <= Z.pos p / 2 ^ (d - 53) < 2 ^ 53).
  { apply (leading_digits (Z.pos p)); [done|]. change (53 <= d). lia. }
  assert (Hm : shr_m (Nat.iter (Z.to_nat (d - 53)) shr_1
                        {| shr_m := Z.pos p; shr_r := false; shr_s := false |})
               = Z.pos p / 2 ^ (d - 53)).
  { rewrite shr_iter_div by (simpl; lia). simpl. by rewrite Z2Nat.id by lia. }
  assert (Hm1 : 2 ^ 52 <= m1 <= 2 ^ 53).
  { unfold m1, rounded. cbv zeta.
    pose proof (round_nearest_even_range
      (shr_m (Nat.iter (Z.to_nat (d - 53)) shr_1
                {| shr_m := Z.pos p; shr_r := false; shr_s := false |}))
      (loc_of_shr_record (Nat.iter (Z.to_nat (d - 53)) shr_1
                {| shr_m := Z.pos p; shr_r := false; shr_s := false |}))) as Hr.
    rewrite <- Hm in Hq. lia. }
  split; [done|].
  unfold num_of_Z. simpl binary_normalize. unfold binary_round.
  fold d. replace (fexp prec emax (d + 0)) with (d - 53)
    by (unfold fexp, SpecFloat.emin, prec, emax; lia).
  unfold shl_align. destruct (d - 53 - 0) as [|j|j] eqn:Ej; [lia| |lia].
  unfold binary_round_aux. unfold shr_fexp at 1. simpl Zdigits2. fold d.
  replace (fexp prec emax (d + 0) - 0) with (d - 53)
    by (unfold fexp, SpecFloat.emin, prec, emax; lia).
  unfold shr. destruct (d - 53) as [|j'|j'] eqn:Ej'; [lia| |lia].
  simpl shr_record_of_loc. rewrite iter_pos_nat.
  change (Pos.to_nat j') with (Z.to_nat (Z.pos j')).
  fold (rounded (Z.pos p) (Z.to_nat (Z.pos j'))). fold m1.
  replace (0 + Z.pos j') with (Z.pos j') by lia.
  destruct (Z.eqb_spec m1 (2 ^ 53)) as [E|Hne].
  - rewrite E. unfold shr_fexp.
    replace (fexp prec emax (Zdigits2 (2 ^ 53) + Z.pos j') - Z.pos j') with 1.
    2:{ change (Zdigits2 (2 ^ 53)) with 54.
        unfold fexp, SpecFloat.emin, prec, emax. lia. }
    simpl.
    destruct (Z.pos j' + 1 <=? emax - prec) eqn:L; [done|].
    apply Z.leb_gt in L. unfold emax, prec in L. lia.
  - assert (Hr : 2 ^ 52 <= m1 < 2 ^ 53) by lia.
    destruct m1 as [|q|q] eqn:Eq; [lia| |lia].
    assert (Hd : Z.pos (digits2_pos q) = 53).
    { apply (Zdigits2_unique (Z.pos q) 53); [done|lia]. }
    rewrite shr_fexp_canonical by (done || lia). simpl.
    destruct (Z.pos j' <=? emax - prec) eqn:L; [done|].
    apply Z.leb_gt in L. unfold emax, prec in L. lia.
Qed.

Lemma pow2_lt_inv a b : 0 <= b -> 2 ^ a < 2 ^ b -> a < b.
Proof.
  intros Hb Hlt. destruct (Z.lt_ge_cases a b) as [|Hge]; [done|].
  assert (2 ^ b <= 2 ^ a) by (apply Z.pow_le_mono_r; lia). lia.
Qed.

(** The binary64 number of a positive integer, by the number of its
    digits: the integer itself with its digits moved up, or its 53 leading
    digits rounded. *)
Lemma num_of_Z_shape p :
  let d := Z.pos (digits2_pos p) in
  d <= 1023 ->
  exists m e,
    num_of_Z (Z.pos p) = S754_finite false m e /\
    Z.pos (digits2_pos m) = 53 /\
    ((d <= 53 /\ e = d - 53 /\ Z.pos m = Z.pos p * 2 ^ (53 - d)) \/
     (53 < d /\ e = d - 53 /\
      Z.pos m = rounded (Z.pos p) (Z.to_nat (d - 53))) \/
     (53 < d /\ e = d - 53 + 1 /\ Z.pos m = 2 ^ 52 /\
      rounded (Z.pos p) (Z.to_nat (d - 53)) = 2 ^ 53)).
Proof.
  intros d Hd. destruct (Z.le_gt_cases d 53) as [Hs|Hb].
  - assert (Hp : Z.pos p < 2 ^ 53).
    { pose proof (digits2_pos_bounds p) as [_ Hhi]. fold d in Hhi.
      assert (2 ^ d <= 2 ^ 53) by (apply Z.pow_le_mono_r; lia). lia. }
    rewrite num_of_Z_pos by done. unfold normal. fold d.
    eexists _, _. split; [done|]. split.
    + rewrite shl_digits. fold d. lia.
    + left. split; [done|]. split; [done|].
      rewrite shl_value. do 2 f_equal. lia.
  - destruct (num_of_Z_big p) as [Hm1 ->]; [fold d; lia|done|]. fold d.
    fold d in Hm1.
    remember (rounded (Z.pos p) (Z.to_nat (d - 53))) as m1 eqn:Em1.
    destruct (Z.eqb_spec m1 (2 ^ 53)) as [E|Hne].
    + eexists _, _. split; [done|]. split; [done|]. right. right. done.
    + destruct m1 as [|q|q]; [lia| |lia].
      eexists _, _. split; [done|]. split.
      * apply (Zdigits2_unique (Z.pos q) 53); [|lia]. simpl. lia.
      * right. left. done.
Qed.

Lemma digits2_pos_mono p0 p1 :
  Z.pos p0 <= Z.pos p1 -> Z.pos (digits2_pos p0) <= Z.pos (digits2_pos p1).
Proof.
  intros Hle. pose proof (digits2_pos_bounds p0) as [Hlo _].
  pose proof (digits2_pos_bounds p1) as [_ Hhi].
  assert (H : 2 ^ (Z.pos (digits2_pos p0) - 1) < 2 ^ Z.pos (digits2_pos p1))
    by lia.
  apply pow2_lt_inv in H; lia.
Qed.

Lemma digits2_pos_below p : Z.pos p < 2 ^ 1023 -> Z.pos (digits2_pos p) <= 1023.
Proof.
  intros Hp. pose proof (digits2_pos_bounds p) as [Hlo _].
  assert (H : 2 ^ (Z.pos (digits2_pos p) - 1) < 2 ^ 1023) by lia.
  apply pow2_lt_inv in H; lia.
Qed.

(** Rounding keeps the order of the integers: of two positive integers
    below [2 ^ 1023], the larger has the larger exponent, or the same
    exponent and no smaller a mantissa. *)
Lemma num_of_Z_mono p0 p1 :
  Z.pos p0 <= Z.pos p1 -> Z.pos p1 < 2 ^ 1023 ->
  exists m0 e0 m1 e1,
    num_of_Z (Z.pos p0) = S754_finite false m0 e0 /\
    num_of_Z (Z.pos p1) = S754_finite false m1 e1 /\
    Z.pos (digits2_pos m0) = 53 /\ Z.pos (digits2_pos m1) = 53 /\
    (e0 < e1 \/ (e0 = e1 /\ Z.pos m0 <= Z.pos m1)).
Proof.
  intros Hle Hhi.
  pose proof (digits2_pos_mono p0 p1 Hle) as Hd.
  pose proof (digits2_pos_below p1 Hhi) as Hd1.
  destruct (num_of_Z_shape p0) as (m0 & e0 & -> & Hm0 & H0); [lia|].
  destruct (num_of_Z_shape p1) as (m1 & e1 & -> & Hm1 & H1); [lia|].
  exists m0, e0, m1, e1. do 4 (split; [done|]).
  pose proof (full_mantissa m0 Hm0) as Hr0.
  pose proof (full_mantissa m1 Hm1) as Hr1.
  set (d0 := Z.pos (digits2_pos p0)) in *.
  set (d1 := Z.pos (digits2_pos p1)) in *.
  destruct (Z.eq_dec d0 d1) as [E|Hne].
  - assert (Hmono := rounded_mono (Z.pos p0) (Z.pos p1) (Z.to_nat (d1 - 53))
                       ltac:(lia)).
    rewrite E in *.
    destruct H0 as [(? & -> & Hv0)|[(? & -> & Hv0)|(? & -> & Hv0 & Hx0)]];
      destruct H1 as [(? & -> & Hv1)|[(? & -> & Hv1)|(? & -> & Hv1 & Hx1)]];
      try lia.
    right. split; [done|]. rewrite Hv0, Hv1.
    apply Z.mul_le_mono_nonneg_r; [|done]. apply Z.pow_nonneg. lia.
  - destruct H0 as [(? & -> & Hv0)|[(? & -> & Hv0)|(? & -> & Hv0 & Hx0)]];
      destruct H1 as [(? & -> & Hv1)|[(? & -> & Hv1)|(? & -> & Hv1 & Hx1)]];
      lia.
Qed.

Lemma num_sub_nonneg_ordered m0 e0 m1 e1 :
  Z.pos (digits2_pos m0) = 53 -> Z.pos (digits2_pos m1) = 53 ->
  e0 < e1 \/ (e0 = e1 /\ Z.pos m0 <= Z.pos m1) ->
  non_negative (num_sub (S754_finite false m1 e1) (S754_finite false m0 e0))
  = true.
Proof.
  intros Hm0 Hm1 Hle. unfold num_sub, SFsub. simpl cond_Zopp.
  pose proof (full_mantissa m0 Hm0) as Hr0.
  pose proof (full_mantissa m1 Hm1) as Hr1.
  set (ez := Z.min e1 e0).
  rewrite !shl_align_value by (unfold ez; lia).
  set (D := Z.pos m1 * 2 ^ (e1 - ez) - Z.pos m0 * 2 ^ (e0 - ez)).
  assert (HD : 0 <= D).
  { unfold D. destruct Hle as [Hlt|[-> Hm]].
    - replace ez with e0 by (unfold ez; lia). rewrite Z.sub_diag.
      assert (2 ^ 1 <= 2 ^ (e1 - e0)) by (apply Z.pow_le_mono_r; lia).
      change (2 ^ 1) with 2 in *. change (2 ^ 0) with 1.
      change (2 ^ 53) with (2 * 2 ^ 52) in *. nia.
    - replace ez with e1 by (unfold ez; lia). rewrite Z.sub_diag. lia. }
  destruct D as [|q|q]; [done| |lia].
  simpl. unfold binary_round. destruct (shl_align q ez _) as [mz ez'].
  by apply binary_round_aux_nonneg.
Qed.

(** The difference of two counters in their order is zero or above, whether
    they are exact or rounded. *)
Lemma num_sub_nonneg R0 R1 :
  0 <= R0 <= R1 -> R1 < 2 ^ 1023 ->
  non_negative (num_sub (num_of_Z R1) (num_of_Z R0)) = true.
Proof.
  intros [H0 H01] H1.
  destruct R0 as [|p0|p0]; [|destruct R1 as [|p1|p1]; try lia|lia].
  - destruct R1 as [|p1|p1]; [done| |lia].
    pose proof (digits2_pos_below p1 H1) as Hd.
    by destruct (num_of_Z_shape p1 Hd) as (m & e & -> & _).
  - destruct (num_of_Z_mono p0 p1 H01 H1)
      as (m0 & e0 & m1 & e1 & -> & -> & Hm0 & Hm1 & Hle).
    by apply num_sub_nonneg_ordered.
Qed.

Lemma num_mul_nonneg_finite x y :
  non_negative x = true -> positive_finite y = true ->
  non_negative (num_mul x y) = true.
Proof.
  destruct x as [[]|[]| |[] m e]; try done;
    destruct y as [[]|[]| |[] m' e']; try done.
  intros _ _. unfold num_mul, SFmul. simpl. by apply binary_round_aux_nonneg.
Qed.

(** ** The rate of counters in their order *)

(** C7, as the code has it.  For counters [R0 <= R1], a positive sector size
    and an elapsed time as [process.hrtime] reports it (whole seconds and
    less than a second in nanoseconds, not both zero), the rate of lines
    117-118 is zero or above, for every counter below [2 ^ 1023] and so for
    every counter of 64 bits.  When the counters are below [2 ^ 53], the
    rate is the difference [R1 - R0] times the sector size over the squared
    time, in binary64 arithmetic: it depends on the counters through their
    difference alone, by a factor the counters have no part in. *)
Theorem rate_of_ordered_counters s0 s1 R0 R1 sectorSize sec nsec :
  decimal s0 = Some R0 -> decimal s1 = Some R1 ->
  R0 <= R1 -> R1 < 2 ^ 1023 ->
  positive_finite (ToNumber sectorSize) = true ->
  0 <= sec < 2 ^ 53 -> 0 <= nsec < 10 ^ 9 -> 0 < sec + nsec ->
  let t := diffSeconds (sec, nsec) in
  let rate := totalBytesPerSecond (VString s0) (VString s1) sectorSize t in
  non_negative rate = true /\
  (R1 < 2 ^ 53 ->
   rate = num_div (num_mul (num_of_Z (R1 - R0)) (ToNumber sectorSize))
                  (num_mul t t)).
Proof.
  intros Hs0 Hs1 Hle Hlt Hsize Hsec Hnsec Hpos. simpl.
  pose proof (decimal_nonneg _ _ Hs0) as H0.
  pose proof (elapsed_squared_positive sec nsec Hsec Hnsec Hpos) as Htime.
  unfold totalBytesPerSecond. simpl ToNumber.
  rewrite (decimal_number _ _ Hs0), (decimal_number _ _ Hs1).
  split.
  - apply num_div_nonneg; [|done]. apply num_mul_nonneg_finite; [|done].
    by apply num_sub_nonneg.
  - intros Hexact. by rewrite num_sub_exact by lia.
Qed.

(** A counter of 64 bits that goes from beyond [2 ^ 53] to its largest
    value, and 2000 sectors of 512 bytes, each in a second and a half. *)
Lemma rate_of_ordered_counters_witness :
  non_negative
    (totalBytesPerSecond (VString "9007199254740993")
       (VString "18446744073709551615") (VNumber (num_of_Z 512))
       (diffSeconds (1, 500000000))) = true /\
  totalBytesPerSecond (VString "1000") (VString "3000")
    (VNumber (num_of_Z 512)) (diffSeconds (1, 500000000))
  = num_div (num_mul (num_of_Z (3000 - 1000)) (num_of_Z 512))
            (num_mul (diffSeconds (1, 500000000))
                     (diffSeconds (1, 500000000))).
Proof.
  split.
  - apply (rate_of_ordered_counters "9007199254740993" "18446744073709551615"
             9007199254740993 18446744073709551615
             (VNumber (num_of_Z 512)) 1 500000000).
    + reflexivity.
    + reflexivity.
    + lia.
    + reflexivity.
    + reflexivity.
    + lia.
    + lia.
    + lia.
  - apply (rate_of_ordered_counters "1000" "3000" 1000 3000
             (VNumber (num_of_Z 512)) 1 500000000).
    + reflexivity.
    + reflexivity.
    + lia.
    + reflexivity.
    + reflexivity.
    + lia.
    + lia.
    + lia.
    + reflexivity.
Defined.

(** ** The squared time *)

Lemma num_of_Z_neg z : z <> 0 -> num_of_Z (- z) = num_neg (num_of_Z z).
Proof. apply binary_normalize_opp. Qed.

(** Counters below [2 ^ 53] are subtracted as the integers they are,
    whichever is the larger. *)
Lemma num_sub_exact_any R0 R1 :
  0 <= R0 < 2 ^ 53 -> 0 <= R1 < 2 ^ 53 ->
  num_sub (num_of_Z R1) (num_of_Z R0) = num_of_Z (R1 - R0).
Proof.
  intros H0 H1. destruct (Z.le_gt_cases R0 R1) as [Hle|Hgt].
  - apply num_sub_exact; lia.
  - rewrite num_sub_exact_down by lia.
    rewrite <- num_of_Z_neg by lia. f_equal. lia.
Qed.

(** Whole seconds are the elapsed time as they are. *)
Lemma diffSeconds_whole sec :
  0 <= sec < 2 ^ 53 -> diffSeconds (sec, 0) = num_of_Z sec.
Proof.
  intros [H0 H1]. unfold diffSeconds. simpl fst. simpl snd.
  change (num_mul (num_of_Z 0) (round_decimal false 1 (-9)))
    with (S754_zero false).
  destruct sec as [|q|q]; [done| |lia].
  by rewrite num_of_Z_pos.
Qed.

(** C1, as the code has it.  When the device is in both snapshots and its
    counter is a decimal number below [2 ^ 53] at either read, what
    [usageRead] (and [usageWrite], on the other counter) hands to the unit
    conversion is [(delta * sectorSizeBytes) / (elapsedSeconds *
    elapsedSeconds)], where [delta] is the difference of the two counters as
    integers, of either sign, and [elapsedSeconds] is the time
    [process.hrtime] reports, which for whole seconds is their number: the
    elapsed time divides squared. *)
Theorem usage_divides_by_squared_time opts w r0 r1 :
  present (first_read w) (device_of opts) r0 ->
  present (second_read w) (device_of opts) r1 ->
  let cfg := apply_defaults opts in
  let elapsedSeconds := diffSeconds (hrtime_diff w) in
  let passed (R0 R1 : Z) :=
    num_div (num_mul (num_of_Z (R1 - R0))
                     (ToNumber (get_option cfg "sectorSizeBytes")))
            (num_mul elapsedSeconds elapsedSeconds) in
  (forall s0 s1 R0 R1,
     sectorsRead r0 = Some s0 -> sectorsRead r1 = Some s1 ->
     decimal s0 = Some R0 -> decimal s1 = Some R1 ->
     R0 < 2 ^ 53 -> R1 < 2 ^ 53 ->
     outcome (usageRead opts w)
     = Resolves (fst (_bytesTo (passed R0 R1) (get_option cfg "units")))) /\
  (forall s0 s1 R0 R1,
     sectorsWritten r0 = Some s0 -> sectorsWritten r1 = Some s1 ->
     decimal s0 = Some R0 -> decimal s1 = Some R1 ->
     R0 < 2 ^ 53 -> R1 < 2 ^ 53 ->
     outcome (usageWrite opts w)
     = Resolves (fst (_bytesTo (passed R0 R1) (get_option cfg "units")))) /\
  (forall sec,
     0 <= sec < 2 ^ 53 -> hrtime_diff w = (sec, 0) ->
     elapsedSeconds = num_of_Z sec).
Proof.
  intros H0 H1. simpl. unfold usageRead, usageWrite.
  rewrite !(usage_resolves opts w r0 r1 H0 H1). simpl.
  split; [|split].
  - intros s0 s1 R0 R1 -> -> Hs0 Hs1 Hb0 Hb1. do 3 f_equal.
    unfold totalBytesPerSecond. simpl ToNumber.
    rewrite (decimal_number _ _ Hs0), (decimal_number _ _ Hs1).
    pose proof (decimal_nonneg _ _ Hs0). pose proof (decimal_nonneg _ _ Hs1).
    by rewrite num_sub_exact_any by lia.
  - intros s0 s1 R0 R1 -> -> Hs0 Hs1 Hb0 Hb1. do 3 f_equal.
    unfold totalBytesPerSecond. simpl ToNumber.
    rewrite (decimal_number _ _ Hs0), (decimal_number _ _ Hs1).
    pose proof (decimal_nonneg _ _ Hs0). pose proof (decimal_nonneg _ _ Hs1).
    by rewrite num_sub_exact_any by lia.
  - intros sec Hsec ->. by apply diffSeconds_whole.
Qed.

(** In two seconds [sda] read 2000 sectors of 512 bytes and wrote 512: a
    quarter of the bytes each, 256000 and 65536, not a half.  The 2000
    sectors in a second and a half: the bytes over 2.25. *)
Lemma usage_divides_by_squared_time_witness :
  outcome (usageRead ∅ slow_world) = Resolves (VNumber (num_of_Z 256000)) /\
  outcome (usageWrite ∅ slow_world) = Resolves (VNumber (num_of_Z 65536)) /\
  diffSeconds (hrtime_diff slow_world) = num_of_Z 2 /\
  outcome (usageRead ∅ uneven_world)
  = Resolves (VNumber (StringToNumber "455111.1111111111")).
Proof.
  assert (Hs0 : present (first_read slow_world) (device_of ∅)
                  (stats_of (fields (sda_line "1000" "7000")))).
  { by_parsing. }
  assert (Hs1 : present (second_read slow_world) (device_of ∅)
                  (stats_of (fields (sda_line "3000" "7512")))).
  { by_parsing. }
  assert (Hu1 : present (second_read uneven_world) (device_of ∅)
                  (stats_of (fields (sda_line "3000" "7000")))).
  { by_parsing. }
  destruct (usage_divides_by_squared_time ∅ slow_world _ _ Hs0 Hs1)
    as (Hread & Hwrite & Htime).
  destruct (usage_divides_by_squared_time ∅ uneven_world _ _ Hs0 Hu1)
    as (Hread' & _ & _).
  split; [|split; [|split]].
  - exact (Hread "1000" "3000" 1000 3000 eq_refl eq_refl eq_refl eq_refl
             eq_refl eq_refl).
  - exact (Hwrite "7000" "7512" 7000 7512 eq_refl eq_refl eq_refl eq_refl
             eq_refl eq_refl).
  - apply (Htime 2); [lia|reflexivity].
  - exact (Hread' "1000" "3000" 1000 3000 eq_refl eq_refl eq_refl eq_refl
             eq_refl eq_refl).
Defined.

(** C1 as stated fails for counters from [2 ^ 53] on, which are rounded
    before they are subtracted.  With 512-byte sectors and two seconds
    between the reads, a step from 9007199254740992 to 9007199254740993 is a
    delta of 1, for which the formula gives 128; the code hands 0 to the
    unit conversion, and [usageRead] resolves with [undefined]. *)
Lemma squared_time_of_huge_counters :
  decimal "9007199254740992" = Some (2 ^ 53) /\
  decimal "9007199254740993" = Some (2 ^ 53 + 1) /\
  fst (_bytesTo
         (num_div (num_mul (num_of_Z (2 ^ 53 + 1 - 2 ^ 53)) (num_of_Z 512))
                  (num_mul (diffSeconds (2, 0)) (diffSeconds (2, 0))))
         (VString "bytes"))
  = VNumber (num_of_Z 128) /\
  totalBytesPerSecond (VString "9007199254740992")
    (VString "9007199254740993") (VNumber (num_of_Z 512)) (diffSeconds (2, 0))
  = S754_zero false /\
  outcome (usageRead ∅ huge_slow_world) = Resolves VUndefined.
Proof. repeat split; vm_compute; reflexivity. Qed.
